(** * Empire CloudFormation template builder

    A shallow embedding of [scheduler/cloudformation/template.go]
    ([EmpireTemplate.Build] and [EmpireTemplate.ContainerDefinition]) and
    the properties of the resource graph it assembles. *)

From Stdlib Require Import ZArith Ascii String.
From stdpp Require Import gmap strings list fin_maps pretty.

Local Open Scope Z_scope.
Local Open Scope string_scope.

(** ** Values stored behind [interface{}]

    [Build] assembles its document out of [map[string]interface{}]
    literals, slices, strings, integers and booleans.  Go maps are finite
    maps ([gmap], whose equality is content equality, whatever the order of
    insertion); structs of the AWS SDK are rendered as the map of their
    fields. *)

#[warnings="-register-all"]
Inductive value : Type :=
| VString (s : string)
| VInt (z : Z)
| VBool (b : bool)
| VList (l : list value)
| VMap (m : gmap string value).

Definition VStrings (l : list string) : value := VList (VString <$> l).

(** ** Outcomes of a call

    [Build] has the Go signature [(interface{}, error)].  A call either
    returns a value with a nil error, returns a non-nil error, or does not
    return at all because the runtime panics (here: a nil pointer is
    dereferenced). *)

Inductive fault : Type := NilDereference.

Inductive outcome (A : Type) : Type :=
| Ok (a : A)
| Err (e : string)
| Panic (f : fault).
Arguments Ok {A} a.
Arguments Err {A} e.
Arguments Panic {A} f.

#[global] Instance outcome_bind : MBind outcome := λ A B k o,
  match o with
  | Ok a => k a
  | Err e => Err e
  | Panic f => Panic f
  end.

(** [*p] for a pointer [p]. *)
Definition deref {A} (p : option A) : outcome A :=
  match p with
  | Some a => Ok a
  | None => Panic NilDereference
  end.

(** [int64(u)] for an unsigned 64-bit [u]: reinterpretation modulo 2^64. *)
Definition to_int64 (u : Z) : Z := (u + 2 ^ 63) mod 2 ^ 64 - 2 ^ 63.

(** ** Types of the packages [Build] works with *)

Module bytesize.
(** Modelled from the spec: the constant [bytesize.MB] of [pkg/bytesize],
    which is not among the sources; the spec gives the divisor of the
    memory conversion as 2^20. *)
Definition MB : Z := 2 ^ 20.
End bytesize.

Module route53.
(** [route53.HostedZone]: both fields are pointers. *)
Record HostedZone : Type := {
  Id : option string;
  Name : option string;
}.
End route53.

Module ecs.
Record KeyValuePair : Type := {
  Name : string;
  Value : string;
}.

Record Ulimit : Type := {
  UlimitName : string;
  SoftLimit : Z;
  HardLimit : Z;
}.

Record ContainerDefinition : Type := {
  ContainerName : string;
  Cpu : Z;
  Command : list string;
  Image : string;
  Essential : bool;
  Memory : Z;
  Environment : list KeyValuePair;
  (** [*ecs.LogConfiguration], opaque to the builder; [None] is nil. *)
  LogConfiguration : option value;
  DockerLabels : gmap string string;
  Ulimits : list Ulimit;
}.
End ecs.

Module scheduler.
(** The dynamic type behind [Exposure.Type]. *)
Inductive ExposureType : Type :=
| HTTPExposure
| HTTPSExposure (Cert : string)
| TCPExposure.

(** [scheduler.Exposure], the struct behind the pointer [p.Exposure]. *)
Record ExposureRec : Type := {
  External : bool;
  ExpType : ExposureType;
}.

(** [scheduler.Process].  [Image] holds the rendering [p.Image.String()];
    [Instances], [MemoryLimit], [CPUShares] and [Nproc] are unsigned
    machine words; [Exposure] is a pointer, [None] when nil. *)
Record Process : Type := {
  Type_ : string;
  Image : string;
  Command : list string;
  Env : gmap string string;
  Labels : gmap string string;
  Exposure : option ExposureRec;
  Instances : Z;
  MemoryLimit : Z;
  CPUShares : Z;
  Nproc : Z;
}.

Record App : Type := {
  Name : string;
  Processes : list Process;
}.
End scheduler.

(** ** Constants *)

Definition ContainerPort : Z := 8080.
Definition schemeInternal : string := "internal".
Definition schemeExternal : string := "internet-facing".
Definition defaultConnectionDrainingTimeout : Z := 30.
Definition defaultCNAMETTL : Z := 60.

Record EmpireTemplate : Type := {
  Cluster : string;
  HostedZone : option route53.HostedZone;
  InternalSecurityGroupID : string;
  ExternalSecurityGroupID : string;
  InternalSubnetIDs : list string;
  ExternalSubnetIDs : list string;
  ServiceRole : string;
  CustomResourcesTopic : string;
  LogConfiguration : option value;
}.

(** The document [Build] returns: a map with the three fixed keys
    ["Parameters"], ["Resources"] and ["Outputs"]. *)
Record Document : Type := {
  Parameters : gmap string value;
  Resources : gmap string value;
  Outputs : gmap string value;
}.

(** ** Key normalisation

    [regexp.MustCompile("[^a-zA-Z0-9]").ReplaceAllString(s, "")]: every
    byte outside the three ASCII ranges is dropped (a rune outside ASCII
    consists of such bytes only). *)

Definition is_alnum (c : ascii) : bool :=
  let n := N_of_ascii c in
  ((48 <=? n) && (n <=? 57) || (65 <=? n) && (n <=? 90)
   || (97 <=? n) && (n <=? 122))%N.

Fixpoint normalize (s : string) : string :=
  match s with
  | EmptyString => EmptyString
  | String c s' => if is_alnum c then String c (normalize s') else normalize s'
  end.

(** ** ContainerDefinition

    [order] is the sequence in which [for k, v := range p.Env] visits the
    entries of the map; the Go runtime chooses it afresh at every [range]
    statement.  The loop over [p.Labels] copies the entries into a new map,
    which does not depend on the order of the visit. *)

Definition ContainerDefinition (t : EmpireTemplate)
    (order : list (string * string)) (p : scheduler.Process)
    : ecs.ContainerDefinition :=
  let command := scheduler.Command p in
  let environment :=
    (λ kv, {| ecs.Name := kv.1; ecs.Value := kv.2 |}) <$> order in
  let labels := scheduler.Labels p in
  let ulimits :=
    if decide (scheduler.Nproc p ≠ 0) then
      [ {| ecs.UlimitName := "nproc";
           ecs.SoftLimit := to_int64 (scheduler.Nproc p);
           ecs.HardLimit := to_int64 (scheduler.Nproc p) |} ]
    else [] in
  {| ecs.ContainerName := scheduler.Type_ p;
     ecs.Cpu := to_int64 (scheduler.CPUShares p);
     ecs.Command := command;
     ecs.Image := scheduler.Image p;
     ecs.Essential := true;
     ecs.Memory := to_int64 (scheduler.MemoryLimit p `quot` bytesize.MB);
     ecs.Environment := environment;
     ecs.LogConfiguration := LogConfiguration t;
     ecs.DockerLabels := labels;
     ecs.Ulimits := ulimits |}.

(** ** Pieces of the document *)

Definition KeyValuePair_value (kv : ecs.KeyValuePair) : value :=
  VMap {[ "Name" := VString (ecs.Name kv); "Value" := VString (ecs.Value kv) ]}.

Definition Ulimit_value (u : ecs.Ulimit) : value :=
  VMap {[ "Name" := VString (ecs.UlimitName u);
          "SoftLimit" := VInt (ecs.SoftLimit u);
          "HardLimit" := VInt (ecs.HardLimit u) ]}.

(** [map[string]string{"Ref": id}] *)
Definition Ref (id : string) : value := VMap {[ "Ref" := VString id ]}.

(** [map[string][]string{"Fn::GetAtt": []string{id, attr}}] *)
Definition GetAtt (id attr : string) : value :=
  VMap {[ "Fn::GetAtt" := VList [VString id; VString attr] ]}.

Definition instancePortId (key : string) : string :=
  key +:+ pretty ContainerPort +:+ "InstancePort".
Definition loadBalancerId (key : string) : string := key +:+ "LoadBalancer".
Definition taskDefinitionId (key : string) : string := key +:+ "TaskDefinition".

Definition instancePortProperties (t : EmpireTemplate) : value :=
  VMap {[ "ServiceToken" := VString (CustomResourcesTopic t) ]}.

Definition instancePortResource (t : EmpireTemplate) : value :=
  VMap {[ "Type" := VString "Custom::InstancePort";
          "Version" := VString "1.0";
          "Properties" := instancePortProperties t ]}.

Definition plainListener (instancePort : string) : value :=
  VMap {[ "LoadBalancerPort" := VInt 80;
          "Protocol" := VString "http";
          "InstancePort" := GetAtt instancePort "InstancePort";
          "InstanceProtocol" := VString "http" ]}.

Definition certListener (instancePort cert : string) : value :=
  VMap {[ "LoadBalancerPort" := VInt 80;
          "Protocol" := VString "http";
          "InstancePort" := GetAtt instancePort "InstancePort";
          "SSLCertificateId" := VString cert;
          "InstanceProtocol" := VString "http" ]}.

Definition buildListeners (instancePort : string) (e : scheduler.ExposureRec)
    : list value :=
  let listeners := [plainListener instancePort] in
  match scheduler.ExpType e with
  | scheduler.HTTPSExposure cert =>
      (listeners ++ [certListener instancePort cert])%list
  | _ => listeners
  end.

Definition portMapping (instancePort : string) : value :=
  VMap {[ "ContainerPort" := VInt ContainerPort;
          "HostPort" := GetAtt instancePort "InstancePort" ]}.

Definition portVariable : ecs.KeyValuePair :=
  {| ecs.Name := "PORT"; ecs.Value := pretty ContainerPort |}.

Definition attachment (p : scheduler.Process) (loadBalancer : string) : value :=
  VMap {[ "ContainerName" := VString (scheduler.Type_ p);
          "ContainerPort" := VInt ContainerPort;
          "LoadBalancerName" := Ref loadBalancer ]}.

Definition loadBalancerProperties (p : scheduler.Process)
    (scheme sg : string) (subnets : list string) (listeners : list value)
    : gmap string value :=
  {[ "Scheme" := VString scheme;
     "SecurityGroups" := VStrings [sg];
     "Subnets" := VStrings subnets;
     "Listeners" := VList listeners;
     "CrossZone" := VBool true;
     "Tags" := VList [ VMap {[ "Key" := VString "empire.app.process";
                               "Value" := VString (scheduler.Type_ p) ]} ];
     "ConnectionDrainingPolicy" := VMap {[
       "Enabled" := VBool true;
       "Timeout" := VInt defaultConnectionDrainingTimeout ]} ]}.

Definition loadBalancerResource (p : scheduler.Process)
    (scheme sg : string) (subnets : list string) (listeners : list value)
    : value :=
  VMap {[ "Type" := VString "AWS::ElasticLoadBalancing::LoadBalancer";
          "Properties" :=
            VMap (loadBalancerProperties p scheme sg subnets listeners) ]}.

Definition recordSetProperties (zoneId name loadBalancer : string)
    : gmap string value :=
  {[ "HostedZoneId" := VString zoneId;
     "Name" := VString name;
     "Type" := VString "CNAME";
     "TTL" := VInt defaultCNAMETTL;
     "ResourceRecords" := VList [Ref loadBalancer] ]}.

Definition recordSetResource (zoneId name loadBalancer : string) : value :=
  VMap {[ "Type" := VString "AWS::Route53::RecordSet";
          "Properties" := VMap (recordSetProperties zoneId name loadBalancer) ]}.

Definition containerDefinitionMap (cd : ecs.ContainerDefinition)
    (portMappings : list value) : gmap string value :=
  let containerDefinition : gmap string value :=
    {[ "Name" := VString (ecs.ContainerName cd);
       "Command" := VStrings (ecs.Command cd);
       "Cpu" := VInt (ecs.Cpu cd);
       "Image" := VString (ecs.Image cd);
       "Essential" := VBool (ecs.Essential cd);
       "Memory" := VInt (ecs.Memory cd);
       "Environment" := VList (KeyValuePair_value <$> ecs.Environment cd);
       "PortMappings" := VList portMappings;
       "DockerLabels" := VMap (VString <$> ecs.DockerLabels cd);
       "Ulimits" := VList (Ulimit_value <$> ecs.Ulimits cd) ]} in
  match ecs.LogConfiguration cd with
  | Some lc => <[ "LogConfiguration" := lc ]> containerDefinition
  | None => containerDefinition
  end.

Definition taskDefinitionProperties (cd : ecs.ContainerDefinition)
    (portMappings : list value) : gmap string value :=
  {[ "ContainerDefinitions" :=
       VList [VMap (containerDefinitionMap cd portMappings)];
     "Volumes" := VList [] ]}.

Definition taskDefinitionResource (cd : ecs.ContainerDefinition)
    (portMappings : list value) : value :=
  VMap {[ "Type" := VString "AWS::ECS::TaskDefinition";
          "Properties" := VMap (taskDefinitionProperties cd portMappings) ]}.

Definition serviceProperties (t : EmpireTemplate) (p : scheduler.Process)
    (loadBalancers : list value) (taskDefinition : string)
    : gmap string value :=
  let serviceProperties : gmap string value :=
    {[ "Cluster" := VString (Cluster t);
       "DesiredCount" := VInt (scheduler.Instances p);
       "LoadBalancers" := VList loadBalancers;
       "TaskDefinition" := Ref taskDefinition ]} in
  if decide (0 < length loadBalancers)%nat then
    <[ "Role" := VString (ServiceRole t) ]> serviceProperties
  else serviceProperties.

(** [&serviceMetadata{Name: p.Type}] *)
Definition serviceMetadata (name : string) : value :=
  VMap {[ "Name" := VString name ]}.

Definition serviceResource (t : EmpireTemplate) (p : scheduler.Process)
    (loadBalancers : list value) (taskDefinition : string) : value :=
  VMap {[ "Type" := VString "AWS::ECS::Service";
          "Metadata" := serviceMetadata (scheduler.Type_ p);
          "Properties" := VMap (serviceProperties t p loadBalancers taskDefinition) ]}.

(** ** Build *)

(** What the [if p.Exposure != nil] block leaves behind for the rest of
    the iteration. *)
Record exposed : Type := {
  ex_resources : gmap string value;
  ex_environment : list ecs.KeyValuePair;
  ex_portMappings : list value;
  ex_loadBalancers : list value;
}.

Definition expose (t : EmpireTemplate) (app : scheduler.App)
    (p : scheduler.Process) (key : string) (cd : ecs.ContainerDefinition)
    (e : scheduler.ExposureRec) (resources : gmap string value)
    : outcome exposed :=
  let '(scheme, sg, subnets) :=
    if scheduler.External e
    then (schemeExternal, ExternalSecurityGroupID t, ExternalSubnetIDs t)
    else (schemeInternal, InternalSecurityGroupID t, InternalSubnetIDs t) in
  let instancePort := instancePortId key in
  let resources := <[ instancePort := instancePortResource t ]> resources in
  let listeners := buildListeners instancePort e in
  let portMappings := [portMapping instancePort] in
  let environment := (ecs.Environment cd ++ [portVariable])%list in
  let loadBalancer := loadBalancerId key in
  let loadBalancers := [attachment p loadBalancer] in
  let resources :=
    <[ loadBalancer := loadBalancerResource p scheme sg subnets listeners ]>
      resources in
  resources ←
    (if decide (scheduler.Type_ p = "web") then
       zone ← deref (HostedZone t);
       zoneId ← deref (route53.Id zone);
       zoneName ← deref (route53.Name zone);
       Ok (<[ "CNAME" :=
                recordSetResource zoneId
                  (scheduler.Name app +:+ "." +:+ zoneName) loadBalancer ]>
             resources)
     else Ok resources);
  Ok {| ex_resources := resources;
        ex_environment := environment;
        ex_portMappings := portMappings;
        ex_loadBalancers := loadBalancers |}.

Definition with_environment (cd : ecs.ContainerDefinition)
    (environment : list ecs.KeyValuePair) : ecs.ContainerDefinition :=
  {| ecs.ContainerName := ecs.ContainerName cd;
     ecs.Cpu := ecs.Cpu cd;
     ecs.Command := ecs.Command cd;
     ecs.Image := ecs.Image cd;
     ecs.Essential := ecs.Essential cd;
     ecs.Memory := ecs.Memory cd;
     ecs.Environment := environment;
     ecs.LogConfiguration := ecs.LogConfiguration cd;
     ecs.DockerLabels := ecs.DockerLabels cd;
     ecs.Ulimits := ecs.Ulimits cd |}.

(** One pass of [for _, p := range app.Processes]. *)
Definition iteration (t : EmpireTemplate) (app : scheduler.App)
    (order : list (string * string)) (p : scheduler.Process)
    (resources : gmap string value) : outcome (gmap string value) :=
  let cd := ContainerDefinition t order p in
  let key := normalize (scheduler.Type_ p) in
  ex ←
    match scheduler.Exposure p with
    | Some e => expose t app p key cd e resources
    | None =>
        Ok {| ex_resources := resources;
              ex_environment := ecs.Environment cd;
              ex_portMappings := [];
              ex_loadBalancers := [] |}
    end;
  let cd := with_environment cd (ex_environment ex) in
  let resources := ex_resources ex in
  let taskDefinition := taskDefinitionId key in
  let resources :=
    <[ taskDefinition := taskDefinitionResource cd (ex_portMappings ex) ]>
      resources in
  let service := key in
  let resources :=
    <[ service := serviceResource t p (ex_loadBalancers ex) taskDefinition ]>
      resources in
  Ok resources.

(** The order in which the [n]-th [range] statement over a map of
    environment variables visits its entries. *)
Definition MapRange : Type := nat → gmap string string → list (string * string).

(** Every entry is visited exactly once. *)
Definition valid_range (rng : MapRange) : Prop :=
  ∀ n m, rng n m ≡ₚ map_to_list m.

Fixpoint loop (t : EmpireTemplate) (app : scheduler.App) (rng : MapRange)
    (n : nat) (ps : list scheduler.Process) (resources : gmap string value)
    : outcome (gmap string value) :=
  match ps with
  | [] => Ok resources
  | p :: ps' =>
      resources ← iteration t app (rng n (scheduler.Env p)) p resources;
      loop t app rng (S n) ps' resources
  end.

Definition Build (t : EmpireTemplate) (rng : MapRange) (app : scheduler.App)
    : outcome Document :=
  let parameters : gmap string value := ∅ in
  let outputs : gmap string value := ∅ in
  resources ← loop t app rng 0 (scheduler.Processes app) ∅;
  Ok {| Parameters := parameters; Resources := resources; Outputs := outputs |}.

(** ** Reading a document *)

(** [v[k]] for a map [v]. *)
Definition field (k : string) (v : value) : option value :=
  match v with
  | VMap m => m !! k
  | _ => None
  end.

Definition resourceType (res : value) : option value := field "Type" res.
Definition properties (res : value) : option value := field "Properties" res.

Definition is_type (ty : string) (res : value) : Prop :=
  match resourceType res with
  | Some (VString s) => s = ty
  | _ => False
  end.

#[global] Instance is_type_dec ty res : Decision (is_type ty res).
Proof.
  unfold is_type. destruct (resourceType res) as [[]|]; apply _.
Defined.

(** ** The assignments of one iteration

    The body of the loop touches [resources] only through assignments
    [resources[id] = res]; [writes] lists them in program order. *)

Definition assign (r : gmap string value) (w : string * value)
    : gmap string value :=
  <[ w.1 := w.2 ]> r.

Definition apply_writes (ws : list (string * value)) (r : gmap string value)
    : gmap string value :=
  foldl assign r ws.

Definition cname_write (t : EmpireTemplate) (app : scheduler.App)
    (key : string) : outcome (list (string * value)) :=
  zone ← deref (HostedZone t);
  zoneId ← deref (route53.Id zone);
  zoneName ← deref (route53.Name zone);
  Ok [ ("CNAME",
        recordSetResource zoneId (scheduler.Name app +:+ "." +:+ zoneName)
          (loadBalancerId key)) ].

Definition exposure_scheme (e : scheduler.ExposureRec) : string :=
  if scheduler.External e then schemeExternal else schemeInternal.
Definition exposure_group (t : EmpireTemplate) (e : scheduler.ExposureRec)
    : string :=
  if scheduler.External e then ExternalSecurityGroupID t
  else InternalSecurityGroupID t.
Definition exposure_subnets (t : EmpireTemplate) (e : scheduler.ExposureRec)
    : list string :=
  if scheduler.External e then ExternalSubnetIDs t else InternalSubnetIDs t.

(** The load balancer, task definition and service a process gives rise
    to. *)
Definition loadBalancerOf (t : EmpireTemplate) (p : scheduler.Process)
    (e : scheduler.ExposureRec) : value :=
  loadBalancerResource p (exposure_scheme e) (exposure_group t e)
    (exposure_subnets t e)
    (buildListeners (instancePortId (normalize (scheduler.Type_ p))) e).

Definition taskDefinitionOf (t : EmpireTemplate)
    (order : list (string * string)) (p : scheduler.Process) : value :=
  let cd := ContainerDefinition t order p in
  let key := normalize (scheduler.Type_ p) in
  match scheduler.Exposure p with
  | Some _ =>
      taskDefinitionResource
        (with_environment cd (ecs.Environment cd ++ [portVariable])%list)
        [portMapping (instancePortId key)]
  | None => taskDefinitionResource cd []
  end.

Definition serviceOf (t : EmpireTemplate) (p : scheduler.Process) : value :=
  let key := normalize (scheduler.Type_ p) in
  match scheduler.Exposure p with
  | Some _ =>
      serviceResource t p [attachment p (loadBalancerId key)]
        (taskDefinitionId key)
  | None => serviceResource t p [] (taskDefinitionId key)
  end.

Definition writes (t : EmpireTemplate) (app : scheduler.App)
    (order : list (string * string)) (p : scheduler.Process)
    : outcome (list (string * value)) :=
  let key := normalize (scheduler.Type_ p) in
  let tail :=
    [ (taskDefinitionId key, taskDefinitionOf t order p);
      (key, serviceOf t p) ] in
  match scheduler.Exposure p with
  | None => Ok tail
  | Some e =>
      dns ← (if decide (scheduler.Type_ p = "web")
             then cname_write t app key else Ok []);
      Ok ([ (instancePortId key, instancePortResource t);
            (loadBalancerId key, loadBalancerOf t p e) ] ++ dns ++ tail)%list
  end.

Fixpoint all_writes (t : EmpireTemplate) (app : scheduler.App)
    (rng : MapRange) (n : nat) (ps : list scheduler.Process)
    : outcome (list (string * value)) :=
  match ps with
  | [] => Ok []
  | p :: ps' =>
      ws ← writes t app (rng n (scheduler.Env p)) p;
      ws' ← all_writes t app rng (S n) ps';
      Ok (ws ++ ws')%list
  end.

(** The hosted zone and its two fields are there. *)
Definition zone_configured (t : EmpireTemplate) : Prop :=
  ∃ zoneId zoneName,
    HostedZone t =
      Some {| route53.Id := Some zoneId; route53.Name := Some zoneName |}.

(** The process is the one that gets the DNS record. *)
Definition primary_exposed (p : scheduler.Process) : Prop :=
  scheduler.Type_ p = "web" ∧ is_Some (scheduler.Exposure p).

#[global] Instance primary_exposed_dec p : Decision (primary_exposed p).
Proof. unfold primary_exposed. apply _. Defined.

(** The logical ids the iteration for [p] assigns, in program order. *)
Definition assigned_ids (p : scheduler.Process) : list string :=
  let key := normalize (scheduler.Type_ p) in
  (match scheduler.Exposure p with
   | Some _ =>
       [instancePortId key; loadBalancerId key]
       ++ (if decide (scheduler.Type_ p = "web") then ["CNAME"] else [])
   | None => []
   end ++ [taskDefinitionId key; key])%list.

(** ** Documents that differ in the order of environment lists only *)

Inductive outcome_rel {A} (R : A → A → Prop) : outcome A → outcome A → Prop :=
| rel_Ok a b : R a b → outcome_rel R (Ok a) (Ok b)
| rel_Err e : outcome_rel R (Err e) (Err e)
| rel_Panic f : outcome_rel R (Panic f) (Panic f).

(** Two resources are alike when they are equal, or when both are the task
    definition of container definitions that agree on every field but
    [Environment], the two environment lists holding the same entries. *)
Inductive resource_alike : value → value → Prop :=
| alike_same v : resource_alike v v
| alike_taskDefinition cd1 cd2 portMappings :
    with_environment cd1 [] = with_environment cd2 [] →
    ecs.Environment cd1 ≡ₚ ecs.Environment cd2 →
    resource_alike (taskDefinitionResource cd1 portMappings)
      (taskDefinitionResource cd2 portMappings).

(** Two lists of assignments to the same ids, of resources that are
    alike. *)
Definition writes_alike (ws1 ws2 : list (string * value)) : Prop :=
  Forall2 (λ w1 w2, w1.1 = w2.1 ∧ resource_alike w1.2 w2.2) ws1 ws2.

Definition resources_alike (r1 r2 : gmap string value) : Prop :=
  ∀ id, option_Forall2 resource_alike (r1 !! id) (r2 !! id).

Definition document_alike (d1 d2 : Document) : Prop :=
  Parameters d1 = Parameters d2
  ∧ Outputs d1 = Outputs d2
  ∧ resources_alike (Resources d1) (Resources d2).

(** The names of the environment variables of the first container of a
    task definition, in the order of the list. *)
Definition environment_names (res : value) : list string :=
  match properties res ≫= field "ContainerDefinitions" with
  | Some (VList (cd :: _)) =>
      match field "Environment" cd with
      | Some (VList kvs) =>
          omap (λ kv, match field "Name" kv with
                      | Some (VString s) => Some s
                      | _ => None
                      end) kvs
      | _ => []
      end
  | _ => []
  end.

(** ** References inside a document

    A map with an entry ["Ref"] bound to a string is a direct reference to
    the logical id the string names; a map with an entry ["Fn::GetAtt"]
    bound to a list that starts with a string is an attribute lookup on
    that logical id. *)

Definition direct_refs (m : gmap string value) : gset string :=
  match m !! "Ref" with
  | Some (VString id) => {[ id ]}
  | _ => ∅
  end
  ∪ match m !! "Fn::GetAtt" with
    | Some (VList (VString id :: _)) => {[ id ]}
    | _ => ∅
    end.

Definition map_union (f : value → gset string) (m : gmap string value)
    : gset string :=
  map_fold (λ _ v acc, f v ∪ acc) ∅ m.

(** The logical ids referred to anywhere inside [v]. *)
Fixpoint refs (v : value) : gset string :=
  match v with
  | VList l => ⋃ (refs <$> l)
  | VMap m => direct_refs m ∪ map_union refs m
  | _ => ∅
  end.

(** Every reference inside the properties of [res] names an id of [ids]. *)
Definition resolved (ids : gset string) (res : value) : Prop :=
  ∀ props, properties res = Some props → refs props ⊆ ids.

Definition no_refs (lc : option value) : Prop :=
  match lc with
  | Some v => refs v = ∅
  | None => True
  end.

(** ** DNS records of a document *)

Definition is_record_set (res : value) : Prop :=
  is_type "AWS::Route53::RecordSet" res.

#[global] Instance is_record_set_dec res : Decision (is_record_set res).
Proof. unfold is_record_set. apply _. Defined.

(** The resources of type [AWS::Route53::RecordSet], with their ids. *)
Definition record_sets (resources : gmap string value) : gmap string value :=
  filter (λ kv, is_record_set kv.2) resources.

(** Load balancers, instance-port resources and DNS records. *)
Definition is_network_resource (res : value) : Prop :=
  is_type "AWS::ElasticLoadBalancing::LoadBalancer" res
  ∨ is_type "Custom::InstancePort" res
  ∨ is_type "AWS::Route53::RecordSet" res.



(** ** The prefix of a hosted zone id

    [fixHostedZoneIDPrefix]: [strings.HasPrefix(zoneID, prefix)] is
    [String.prefix prefix zoneID]; joining the two strings with the empty
    separator is their concatenation. *)

Definition fixHostedZoneIDPrefix (zoneID : string) : string :=
  let prefix := "/hostedzone/" in
  let s := zoneID in
  if negb (String.prefix prefix zoneID) then prefix +:+ zoneID else s.

(** The bytes of a string. *)
Fixpoint bytes (s : string) : list ascii :=
  match s with
  | EmptyString => []
  | String c s' => c :: bytes s'
  end.

(** ** Reading the container of a task definition *)

(** The first entry of ["ContainerDefinitions"]. *)
Definition first_container (res : value) : option value :=
  match properties res ≫= field "ContainerDefinitions" with
  | Some (VList (container :: _)) => Some container
  | _ => None
  end.

Definition pair_of_variable (kv : value) : option (string * string) :=
  match field "Name" kv, field "Value" kv with
  | Some (VString name), Some (VString v) => Some (name, v)
  | _, _ => None
  end.

(** The environment list of the container, as name/value pairs in the
    order of the list. *)
Definition environment_of (res : value) : option (list (string * string)) :=
  match first_container res ≫= field "Environment" with
  | Some (VList kvs) => mapM pair_of_variable kvs
  | _ => None
  end.

(** ** Concrete inputs *)

Module Sample.
Definition zone : route53.HostedZone :=
  {| route53.Id := Some "Z3DG6IL3SJCGPX"; route53.Name := Some "empire." |}.

Definition template (z : option route53.HostedZone) : EmpireTemplate :=
  {| Cluster := "cluster";
     HostedZone := z;
     InternalSecurityGroupID := "sg-e7387381";
     ExternalSecurityGroupID := "sg-1938737f";
     InternalSubnetIDs := ["subnet-bb01c4cd"; "subnet-c85f4091"];
     ExternalSubnetIDs := ["subnet-ca96f4cd"; "subnet-a13b909c"];
     ServiceRole := "ecsServiceRole";
     CustomResourcesTopic := "sns topic arn";
     LogConfiguration := None |}.

Definition http : option scheduler.ExposureRec :=
  Some {| scheduler.External := false;
          scheduler.ExpType := scheduler.HTTPExposure |}.

Definition https (cert : string) : option scheduler.ExposureRec :=
  Some {| scheduler.External := true;
          scheduler.ExpType := scheduler.HTTPSExposure cert |}.

Definition process (type : string) (env labels : gmap string string)
    (exposure : option scheduler.ExposureRec) (memory : Z)
    : scheduler.Process :=
  {| scheduler.Type_ := type;
     scheduler.Image := "remind101/acme-inc:latest";
     scheduler.Command := ["./bin/" +:+ type];
     scheduler.Env := env;
     scheduler.Labels := labels;
     scheduler.Exposure := exposure;
     scheduler.Instances := 1;
     scheduler.MemoryLimit := memory;
     scheduler.CPUShares := 256;
     scheduler.Nproc := 0 |}.

Definition app (ps : list scheduler.Process) : scheduler.App :=
  {| scheduler.Name := "acme-inc"; scheduler.Processes := ps |}.

(** A worker with the one Docker label ["Ref"]. *)
Definition labelled : scheduler.Process :=
  process "worker" ∅ {[ "Ref" := "missing" ]} None 0.

(** Two ways a [range] may visit a map. *)
Definition forwards : MapRange := λ _ m, map_to_list m.
Definition backwards : MapRange := λ _ m, reverse (map_to_list m).
End Sample.

(** * Properties *)

#[local] Set Warnings "-clear-no-such-hyp".

(** ** Strings *)

Lemma length_append (s1 s2 : string) :
  String.length (s1 +:+ s2) = (String.length s1 + String.length s2)%nat.
Proof. induction s1 as [|c s1 IH]; simpl; [done | by rewrite IH]. Qed.

Lemma append_ne_self (s suffix : string) :
  suffix ≠ "" → s +:+ suffix ≠ s.
Proof.
  intros Hne Heq. apply (f_equal String.length) in Heq.
  rewrite length_append in Heq. destruct suffix; [done | simpl in Heq; lia].
Qed.

Lemma append_ne_suffix (s1 s2 a b : string) :
  s1 = s2 → a ≠ b → s1 +:+ a ≠ s2 +:+ b.
Proof. intros -> Hne Heq. by apply (inj (String.app s2)) in Heq. Qed.

Lemma pretty_ContainerPort : pretty ContainerPort = "8080".
Proof. reflexivity. Qed.

Lemma instancePortId_eq key : instancePortId key = key +:+ "8080InstancePort".
Proof. unfold instancePortId. by rewrite pretty_ContainerPort. Qed.

(** ** Iterations as lists of assignments *)

Lemma apply_writes_app ws1 ws2 r :
  apply_writes (ws1 ++ ws2) r = apply_writes ws2 (apply_writes ws1 r).
Proof. apply foldl_app. Qed.

Lemma iteration_writes t app order p r :
  iteration t app order p r =
  (ws ← writes t app order p; Ok (apply_writes ws r)).
Proof.
  unfold iteration, writes, taskDefinitionOf, serviceOf.
  destruct (scheduler.Exposure p) as [e|]; [|done].
  unfold expose, loadBalancerOf, exposure_scheme, exposure_group,
    exposure_subnets, cname_write.
  destruct (scheduler.External e);
    (case_decide; [|done]);
    destruct (HostedZone t) as [[[zid|] [zname|]]|]; done.
Qed.

Lemma loop_writes t app rng n ps r :
  loop t app rng n ps r =
  (ws ← all_writes t app rng n ps; Ok (apply_writes ws r)).
Proof.
  revert n r. induction ps as [|p ps IH]; intros n r; [done|].
  simpl. rewrite iteration_writes.
  destruct (writes t app (rng n (scheduler.Env p)) p) as [ws|e|f]; [|done..].
  simpl. rewrite IH.
  destruct (all_writes t app rng (S n) ps) as [ws'|e|f]; [|done..].
  simpl. by rewrite apply_writes_app.
Qed.

Lemma Build_writes t rng app :
  Build t rng app =
  (ws ← all_writes t app rng 0 (scheduler.Processes app);
   Ok {| Parameters := ∅; Resources := apply_writes ws ∅; Outputs := ∅ |}).
Proof.
  unfold Build. rewrite loop_writes.
  by destruct (all_writes t app rng 0 (scheduler.Processes app)).
Qed.

#[local] Arguments taskDefinitionOf : simpl never.
#[local] Arguments serviceOf : simpl never.
#[local] Arguments loadBalancerOf : simpl never.
#[local] Arguments instancePortResource : simpl never.
#[local] Arguments recordSetResource : simpl never.
#[local] Arguments taskDefinitionResource : simpl never.
#[local] Arguments serviceResource : simpl never.
#[local] Arguments loadBalancerResource : simpl never.
#[local] Arguments instancePortId : simpl never.
#[local] Arguments loadBalancerId : simpl never.
#[local] Arguments taskDefinitionId : simpl never.

(** ** When an iteration completes *)

Lemma cname_write_configured t app key zoneId zoneName :
  HostedZone t =
    Some {| route53.Id := Some zoneId; route53.Name := Some zoneName |} →
  cname_write t app key =
  Ok [ ("CNAME",
        recordSetResource zoneId (scheduler.Name app +:+ "." +:+ zoneName)
          (loadBalancerId key)) ].
Proof. unfold cname_write. by intros ->. Qed.

Lemma cname_write_no_zone t app key :
  HostedZone t = None → cname_write t app key = Panic NilDereference.
Proof. unfold cname_write. by intros ->. Qed.

Lemma cname_write_not_Err t app key e : cname_write t app key ≠ Err e.
Proof.
  unfold cname_write.
  by destruct (HostedZone t) as [[[zid|] [zname|]]|].
Qed.

Lemma writes_not_Err t app order p e : writes t app order p ≠ Err e.
Proof.
  unfold writes. destruct (scheduler.Exposure p) as [x|]; [|done].
  case_decide; [|done].
  pose proof (cname_write_not_Err t app (normalize (scheduler.Type_ p))) as H'.
  by destruct (cname_write t app (normalize (scheduler.Type_ p))).
Qed.

Lemma all_writes_not_Err t app rng n ps e : all_writes t app rng n ps ≠ Err e.
Proof.
  revert n. induction ps as [|p ps IH]; intros n; [done|]. simpl.
  pose proof (writes_not_Err t app (rng n (scheduler.Env p)) p) as Hw.
  destruct (writes t app (rng n (scheduler.Env p)) p) as [ws|e'|f];
    [|by destruct (Hw e')|done].
  simpl. specialize (IH (S n)).
  by destruct (all_writes t app rng (S n) ps).
Qed.

Lemma writes_no_zone t app order p :
  HostedZone t = None → primary_exposed p →
  writes t app order p = Panic NilDereference.
Proof.
  intros Hz [Hweb [e He]]. unfold writes. rewrite He.
  rewrite decide_True by done. by rewrite cname_write_no_zone.
Qed.

Lemma writes_elem t app order p ws k v :
  writes t app order p = Ok ws → (k, v) ∈ ws →
  let key := normalize (scheduler.Type_ p) in
  (k = taskDefinitionId key ∧ v = taskDefinitionOf t order p)
  ∨ (k = key ∧ v = serviceOf t p)
  ∨ (∃ e, scheduler.Exposure p = Some e ∧
       ((k = instancePortId key ∧ v = instancePortResource t)
        ∨ (k = loadBalancerId key ∧ v = loadBalancerOf t p e)
        ∨ (scheduler.Type_ p = "web" ∧ k = "CNAME" ∧
           ∃ zoneId zoneName,
             HostedZone t =
               Some {| route53.Id := Some zoneId;
                       route53.Name := Some zoneName |} ∧
             v = recordSetResource zoneId
                   (scheduler.Name app +:+ "." +:+ zoneName)
                   (loadBalancerId "web")))).
Proof.
  intros Hw Hin key. unfold writes in Hw. fold key in Hw.
  destruct (scheduler.Exposure p) as [e|] eqn:He.
  - case_decide as Hweb.
    + assert (key = "web") as Hkey by (unfold key; by rewrite Hweb).
      unfold cname_write in Hw.
      destruct (HostedZone t) as [[[zid|] [zname|]]|] eqn:Hz;
        simplify_eq/=.
      rewrite Hkey in *. try clearbody key. set_unfold in Hin.
      destruct_or!; simplify_eq; first
        [ by left | by right; left
        | right; right; eexists; split; [done|]; first
            [ by left | by right; left | by right; right; do 2 (split; [done|]); eexists _, _ ] ].
    + simplify_eq/=. clearbody key. set_unfold in Hin.
      destruct_or!; simplify_eq; first
        [ by left | by right; left
        | right; right; eexists; split; [done|]; first
            [ by left | by right; left | by right; right; do 2 (split; [done|]); eexists _, _ ] ].
  - simplify_eq/=. clearbody key. set_unfold in Hin.
      destruct_or!; simplify_eq; first
        [ by left | by right; left
        | right; right; eexists; split; [done|]; first
            [ by left | by right; left | by right; right; do 2 (split; [done|]); eexists _, _ ] ].
Qed.

Lemma resourceType_taskDefinitionResource cd pm :
  resourceType (taskDefinitionResource cd pm)
  = Some (VString "AWS::ECS::TaskDefinition").
Proof. reflexivity. Qed.

Lemma resourceType_serviceResource t p lbs td :
  resourceType (serviceResource t p lbs td) = Some (VString "AWS::ECS::Service").
Proof. reflexivity. Qed.

Lemma resourceType_loadBalancerResource p scheme sg subnets ls :
  resourceType (loadBalancerResource p scheme sg subnets ls)
  = Some (VString "AWS::ElasticLoadBalancing::LoadBalancer").
Proof. reflexivity. Qed.

Lemma resourceType_instancePortResource t :
  resourceType (instancePortResource t) = Some (VString "Custom::InstancePort").
Proof. reflexivity. Qed.

Lemma resourceType_recordSetResource zid name lb :
  resourceType (recordSetResource zid name lb)
  = Some (VString "AWS::Route53::RecordSet").
Proof. reflexivity. Qed.

Lemma writes_returns t app order p :
  zone_configured t ∨ ¬ primary_exposed p →
  ∃ ws, writes t app order p = Ok ws.
Proof.
  intros Hok. unfold writes.
  destruct (scheduler.Exposure p) as [e|] eqn:He; [|by eexists].
  case_decide as Hweb; [|by eexists].
  destruct Hok as [(zid & zname & Hz)|Hnot].
  - rewrite (cname_write_configured _ _ _ _ _ Hz). by eexists.
  - destruct Hnot. split; [done|]. by rewrite He.
Qed.

Lemma all_writes_returns t app rng n ps :
  zone_configured t ∨ Forall (λ p, ¬ primary_exposed p) ps →
  ∃ ws, all_writes t app rng n ps = Ok ws.
Proof.
  revert n. induction ps as [|p ps IH]; intros n Hok; [by eexists|].
  simpl.
  destruct (writes_returns t app (rng n (scheduler.Env p)) p) as [ws ->].
  { destruct Hok as [?|Hall]; [by left|right]. by inversion Hall. }
  destruct (IH (S n)) as [ws' ->].
  { destruct Hok as [?|Hall]; [by left|right]. by inversion Hall. }
  by eexists.
Qed.

(** [Build] returns a document whenever the hosted zone is configured or
    no process asks for the DNS record. *)
Lemma Build_returns t rng app :
  zone_configured t
  ∨ Forall (λ p, ¬ primary_exposed p) (scheduler.Processes app) →
  ∃ doc, Build t rng app = Ok doc.
Proof.
  intros Hok. rewrite Build_writes.
  destruct (all_writes_returns t app rng 0 (scheduler.Processes app) Hok)
    as [ws ->].
  by eexists.
Qed.

(** The error result of [Build] is always nil. *)
Lemma Build_never_errs t rng app e : Build t rng app ≠ Err e.
Proof.
  rewrite Build_writes.
  pose proof (all_writes_not_Err t app rng 0 (scheduler.Processes app)) as H.
  destruct (all_writes t app rng 0 (scheduler.Processes app)) as [ws|e'|f];
    [done|by destruct (H e')|done].
Qed.

Lemma all_writes_no_zone t app rng n ps p :
  HostedZone t = None → p ∈ ps → primary_exposed p →
  all_writes t app rng n ps = Panic NilDereference.
Proof.
  intros Hz Hin Hp. revert n.
  induction Hin as [p ps|p q ps Hin IH]; intros n; simpl.
  - by rewrite writes_no_zone.
  - pose proof (writes_not_Err t app (rng n (scheduler.Env q)) q) as Hne.
    destruct (writes t app (rng n (scheduler.Env q)) q) as [ws|e|[]];
      [|by destruct (Hne e)|done].
    simpl. by rewrite IH.
Qed.

(** ** C1: no hosted zone *)

(** C1 (the code departs from the claim).  When no hosted zone is
    configured and some process is named "web" and exposed, [Build] does
    not report an error: it dereferences the nil [HostedZone] pointer and
    the call panics, returning neither a document nor an error value. *)
Theorem Build_missing_zone_panics t rng app p :
  HostedZone t = None →
  p ∈ scheduler.Processes app →
  primary_exposed p →
  Build t rng app = Panic NilDereference.
Proof.
  intros Hz Hin Hp. rewrite Build_writes.
  by rewrite (all_writes_no_zone t app rng 0 _ p Hz Hin Hp).
Qed.

Lemma Build_missing_zone_panics_witness :
  Build (Sample.template None) Sample.forwards
    (Sample.app [Sample.process "web" ∅ ∅ Sample.http 0])
  = Panic NilDereference.
Proof.
  apply (Build_missing_zone_panics _ _ _
           (Sample.process "web" ∅ ∅ Sample.http 0)).
  - reflexivity.
  - simpl. left.
  - split; [reflexivity|]. simpl. by eexists.
Defined.

(** ** C10: parameters and outputs *)

(** C10.  Every document [Build] returns has an empty [Parameters] mapping
    and an empty [Outputs] mapping. *)
Theorem Build_parameters_outputs_empty t rng app doc :
  Build t rng app = Ok doc → Parameters doc = ∅ ∧ Outputs doc = ∅.
Proof.
  rewrite Build_writes.
  destruct (all_writes t app rng 0 (scheduler.Processes app)); [|done..].
  intros [= <-]. done.
Qed.

Lemma Build_parameters_outputs_empty_witness :
  ∃ doc,
    Build (Sample.template (Some Sample.zone)) Sample.forwards
      (Sample.app [Sample.process "web" {[ "RAILS_ENV" := "production" ]} ∅
                     (Sample.https "iam-cert") 536870912;
                   Sample.process "worker" ∅ ∅ None 268435456])
    = Ok doc
    ∧ Parameters doc = ∅ ∧ Outputs doc = ∅.
Proof.
  destruct (Build_returns (Sample.template (Some Sample.zone)) Sample.forwards
      (Sample.app [Sample.process "web" {[ "RAILS_ENV" := "production" ]} ∅
                     (Sample.https "iam-cert") 536870912;
                   Sample.process "worker" ∅ ∅ None 268435456]))
    as [doc Hdoc].
  { left. by eexists _, _. }
  exists doc. split; [exact Hdoc|].
  exact (Build_parameters_outputs_empty _ _ _ _ Hdoc).
Defined.

(** ** C8: memory in whole megabytes *)

Lemma to_int64_small z : 0 ≤ z < 2 ^ 63 → to_int64 z = z.
Proof.
  intros Hz. unfold to_int64.
  rewrite Z.mod_small by lia. lia.
Qed.

(** C8.  The memory value of the container definition is the memory limit
    in bytes divided by 2^20, the remainder being dropped, and this is the
    value stored under ["Memory"]; so 104857600 and 104857601 bytes both
    give 100. *)
Theorem memory_in_whole_megabytes t order p :
  0 ≤ scheduler.MemoryLimit p < 2 ^ 64 →
  let cd := ContainerDefinition t order p in
  ecs.Memory cd = scheduler.MemoryLimit p `div` 2 ^ 20
  ∧ (∀ environment portMappings,
       containerDefinitionMap (with_environment cd environment) portMappings
         !! "Memory"
       = Some (VInt (scheduler.MemoryLimit p `div` 2 ^ 20)))
  ∧ (scheduler.MemoryLimit p = 104857600 → ecs.Memory cd = 100)
  ∧ (scheduler.MemoryLimit p = 104857601 → ecs.Memory cd = 100).
Proof.
  intros Hm cd.
  assert (ecs.Memory cd = scheduler.MemoryLimit p `div` 2 ^ 20) as Hcd.
  { unfold cd, ContainerDefinition, bytesize.MB. simpl ecs.Memory.
    rewrite Z.quot_div_nonneg by lia.
    apply to_int64_small. split; [apply Z.div_pos; lia|].
    apply Z.div_lt_upper_bound; lia. }
  split; [done|]. split; [|split].
  - intros environment portMappings. unfold containerDefinitionMap.
    change (ecs.Memory (with_environment cd environment))
      with (ecs.Memory cd).
    rewrite Hcd.
    destruct (ecs.LogConfiguration (with_environment cd environment));
      by simplify_map_eq.
  - intros Heq. rewrite Hcd, Heq. reflexivity.
  - intros Heq. rewrite Hcd, Heq. reflexivity.
Qed.

Lemma memory_in_whole_megabytes_witness :
  ecs.Memory
    (ContainerDefinition (Sample.template None) []
       (Sample.process "web" ∅ ∅ None 104857600)) = 100
  ∧ ecs.Memory
      (ContainerDefinition (Sample.template None) []
         (Sample.process "web" ∅ ∅ None 104857601)) = 100.
Proof.
  split.
  - refine (proj1 (memory_in_whole_megabytes (Sample.template None) []
                     (Sample.process "web" ∅ ∅ None 104857600) _)).
    simpl. lia.
  - refine (proj1 (memory_in_whole_megabytes (Sample.template None) []
                     (Sample.process "web" ∅ ∅ None 104857601) _)).
    simpl. lia.
Defined.

(** ** The last assignment to an id is the one that stays *)

Lemma apply_writes_lookup_notin ws r k :
  k ∉ ws.*1 → apply_writes ws r !! k = r !! k.
Proof.
  revert r. induction ws as [|[k' v'] ws IH]; intros r Hk; [done|].
  simpl in *. rewrite not_elem_of_cons in Hk. destruct Hk as [Hne Hk].
  rewrite IH by done. unfold assign. simpl. by rewrite lookup_insert_ne.
Qed.

Lemma apply_writes_lookup_last ws1 ws2 r k v :
  k ∉ ws2.*1 → apply_writes (ws1 ++ (k, v) :: ws2) r !! k = Some v.
Proof.
  intros Hk. rewrite apply_writes_app. simpl.
  rewrite apply_writes_lookup_notin by done.
  unfold assign. simpl. by rewrite lookup_insert_eq.
Qed.

Lemma apply_writes_dom ws r :
  dom (apply_writes ws r) = list_to_set ws.*1 ∪ dom r.
Proof.
  revert r. induction ws as [|[k v] ws IH]; intros r; simpl.
  - set_solver.
  - rewrite IH. unfold assign. simpl. rewrite dom_insert_L. set_solver.
Qed.

Lemma apply_writes_lookup_Some ws r k v :
  apply_writes ws r !! k = Some v → (k, v) ∈ ws ∨ r !! k = Some v.
Proof.
  revert r. induction ws as [|[k' v'] ws IH]; intros r Hl; simpl in *.
  - by right.
  - destruct (IH _ Hl) as [Hin|Hr].
    + left. by right.
    + unfold assign in Hr. simpl in Hr.
      apply lookup_insert_Some in Hr as [[<- <-]|[_ Hr]].
      * left. by left.
      * by right.
Qed.

Lemma writes_ids t app order p ws :
  writes t app order p = Ok ws → ws.*1 = assigned_ids p.
Proof.
  unfold writes, assigned_ids.
  destruct (scheduler.Exposure p) as [e|]; [|by intros [= <-]].
  case_decide; [|by intros [= <-]].
  unfold cname_write.
  destruct (HostedZone t) as [[[zid|] [zname|]]|]; try done.
  by intros [= <-].
Qed.

Lemma writes_tail t app order p ws :
  writes t app order p = Ok ws →
  ∃ ws0,
    ws = (ws0 ++ [ (taskDefinitionId (normalize (scheduler.Type_ p)),
                    taskDefinitionOf t order p);
                   (normalize (scheduler.Type_ p), serviceOf t p) ])%list.
Proof.
  unfold writes.
  destruct (scheduler.Exposure p) as [e|];
    [|intros [= <-]; by exists []].
  destruct (if decide (scheduler.Type_ p = "web")
            then cname_write t app (normalize (scheduler.Type_ p))
            else Ok []) as [dns|?|?]; [|done..].
  simpl. intros [= <-].
  by exists ([ (instancePortId (normalize (scheduler.Type_ p)),
               instancePortResource t);
              (loadBalancerId (normalize (scheduler.Type_ p)),
               loadBalancerOf t p e) ] ++ dns)%list.
Qed.

Lemma all_writes_ids t app rng n ps ws :
  all_writes t app rng n ps = Ok ws → ws.*1 = ps ≫= assigned_ids.
Proof.
  revert n ws. induction ps as [|p ps IH]; intros n ws; simpl.
  - by intros [= <-].
  - destruct (writes t app (rng n (scheduler.Env p)) p) as [w|?|?] eqn:Hw;
      [|done..].
    simpl.
    destruct (all_writes t app rng (S n) ps) as [w'|?|?] eqn:Hw'; [|done..].
    simpl. intros [= <-]. rewrite fmap_app.
    by rewrite (writes_ids _ _ _ _ _ Hw), (IH _ _ Hw').
Qed.

Lemma all_writes_split t app rng n l1 p l3 ws :
  all_writes t app rng n (l1 ++ p :: l3) = Ok ws →
  ∃ ws1 wp ws3,
    ws = (ws1 ++ wp ++ ws3)%list
    ∧ all_writes t app rng n l1 = Ok ws1
    ∧ writes t app (rng (n + length l1)%nat (scheduler.Env p)) p = Ok wp
    ∧ all_writes t app rng (S (n + length l1)) l3 = Ok ws3.
Proof.
  revert n ws. induction l1 as [|q l1 IH]; intros n ws; simpl.
  - rewrite Nat.add_0_r.
    destruct (writes t app (rng n (scheduler.Env p)) p) as [wp|?|?];
      [|done..].
    simpl.
    destruct (all_writes t app rng (S n) l3) as [ws3|?|?]; [|done..].
    simpl. intros [= <-]. by exists [], wp, ws3.
  - destruct (writes t app (rng n (scheduler.Env q)) q) as [wq|?|?];
      [|done..].
    simpl.
    destruct (all_writes t app rng (S n) (l1 ++ p :: l3)) as [w|?|?] eqn:Hw;
      [|done..].
    simpl. intros [= <-].
    destruct (IH _ _ Hw) as (ws1 & wp & ws3 & -> & -> & Hp & H3).
    replace (n + S (length l1))%nat with (S n + length l1)%nat by lia.
    exists (wq ++ ws1)%list, wp, ws3. simpl.
    by rewrite <- app_assoc.
Qed.

(** In the document, an id holds what the last iteration that assigns it
    assigned last. *)
Lemma Build_lookup_last_writer t rng app l1 p l3 doc wp1 wp2 k v :
  scheduler.Processes app = (l1 ++ p :: l3)%list →
  Build t rng app = Ok doc →
  writes t app (rng (length l1) (scheduler.Env p)) p
    = Ok (wp1 ++ (k, v) :: wp2)%list →
  k ∉ wp2.*1 →
  Forall (λ q, k ∉ assigned_ids q) l3 →
  Resources doc !! k = Some v.
Proof.
  intros Hps HB Hw Hk Hl3. rewrite Build_writes, Hps in HB.
  destruct (all_writes t app rng 0 (l1 ++ p :: l3)) as [ws|?|?] eqn:Hall;
    [|done..].
  simpl in HB. injection HB as <-. simpl.
  destruct (all_writes_split _ _ _ _ _ _ _ _ Hall)
    as (ws1 & wp & ws3 & -> & _ & Hp & H3).
  simpl in Hp. rewrite Hw in Hp. injection Hp as <-.
  rewrite <- app_assoc. simpl. rewrite app_assoc.
  apply apply_writes_lookup_last.
  rewrite fmap_app, elem_of_app. intros [?|Hin]; [done|].
  rewrite (all_writes_ids _ _ _ _ _ _ H3) in Hin.
  apply list_elem_of_bind in Hin as (q & Hq & Hql).
  rewrite Forall_forall in Hl3. by apply (Hl3 q).
Qed.

(** ** C2: colliding logical ids *)

Lemma field_Metadata_serviceResource t p lbs td :
  field "Metadata" (serviceResource t p lbs td)
  = Some (serviceMetadata (scheduler.Type_ p)).
Proof. reflexivity. Qed.

Lemma field_Name_serviceMetadata name :
  field "Name" (serviceMetadata name) = Some (VString name).
Proof. reflexivity. Qed.

Lemma serviceOf_type_inj t p1 p2 :
  serviceOf t p1 = serviceOf t p2 → scheduler.Type_ p1 = scheduler.Type_ p2.
Proof.
  intros Heq.
  apply (f_equal (λ v, field "Metadata" v ≫= field "Name")) in Heq.
  unfold serviceOf in Heq.
  destruct (scheduler.Exposure p1), (scheduler.Exposure p2);
    rewrite !field_Metadata_serviceResource in Heq;
    cbn [mbind option_bind] in Heq;
    rewrite !field_Name_serviceMetadata in Heq; congruence.
Qed.

(** C2 (counterexample).  The process types "a-b" and "ab" differ and
    normalise to the same key "ab"; [Build] returns a document all the
    same, with the two ids of the second process only: the service and the
    task definition of "a-b" have been overwritten. *)
Lemma collision_goes_undetected :
  let p1 := Sample.process "a-b" ∅ ∅ None 104857600 in
  let p2 := Sample.process "ab" ∅ ∅ None 209715200 in
  scheduler.Type_ p1 ≠ scheduler.Type_ p2
  ∧ normalize (scheduler.Type_ p1) = normalize (scheduler.Type_ p2)
  ∧ ∃ doc,
      Build (Sample.template None) Sample.forwards (Sample.app [p1; p2])
        = Ok doc
      ∧ dom (Resources doc) = {[ "ab"; "abTaskDefinition" ]}
      ∧ Resources doc !! "ab" = Some (serviceOf (Sample.template None) p2)
      ∧ Resources doc !! "ab" ≠ Some (serviceOf (Sample.template None) p1).
Proof.
  intros p1 p2. split; [done|]. split; [reflexivity|].
  eexists. split; [reflexivity|]. split; [|split].
  - vm_compute. reflexivity.
  - vm_compute. reflexivity.
  - intros Heq.
    assert (serviceOf (Sample.template None) p2
            = serviceOf (Sample.template None) p1) as Hs.
    { cut (Some (serviceOf (Sample.template None) p2)
           = Some (serviceOf (Sample.template None) p1)); [congruence|].
      rewrite <- Heq. vm_compute. reflexivity. }
    by apply serviceOf_type_inj in Hs.
Qed.

(** C2 (amended).  A collision of normalised keys is not detected.
    Whenever the hosted zone is configured or no process asks for the DNS
    record, [Build] returns a document; of two processes with the same
    key, the service and the task definition of the later one are what the
    document holds under the shared ids (as long as no process after it
    assigns those ids again), and the service of the earlier one is gone
    when the two types differ. *)
Theorem collision_later_process_wins t rng app l1 p1 l2 p2 l3 :
  scheduler.Processes app = (l1 ++ p1 :: l2 ++ p2 :: l3)%list →
  normalize (scheduler.Type_ p1) = normalize (scheduler.Type_ p2) →
  zone_configured t
  ∨ Forall (λ p, ¬ primary_exposed p) (scheduler.Processes app) →
  let key := normalize (scheduler.Type_ p2) in
  Forall (λ q, (key ∉ assigned_ids q)
               ∧ (taskDefinitionId key ∉ assigned_ids q)) l3 →
  ∃ doc,
    Build t rng app = Ok doc
    ∧ Resources doc !! key = Some (serviceOf t p2)
    ∧ Resources doc !! taskDefinitionId key
      = Some (taskDefinitionOf t
                (rng (length l1 + 1 + length l2)%nat (scheduler.Env p2)) p2)
    ∧ (scheduler.Type_ p1 ≠ scheduler.Type_ p2 →
       Resources doc !! normalize (scheduler.Type_ p1)
       ≠ Some (serviceOf t p1)).
Proof.
  intros Hps Hkey Hok key Hl3.
  destruct (Build_returns t rng app Hok) as [doc Hdoc].
  exists doc. split; [done|].
  assert (scheduler.Processes app = ((l1 ++ p1 :: l2) ++ p2 :: l3)%list)
    as Hps' by (by rewrite <- app_assoc).
  assert (length (l1 ++ p1 :: l2) = (length l1 + 1 + length l2)%nat) as Hlen.
  { rewrite length_app. simpl. lia. }
  set (order := rng (length l1 + 1 + length l2)%nat (scheduler.Env p2)).
  assert (∃ ws, writes t app order p2 = Ok ws) as [ws Hws].
  { rewrite Build_writes, Hps' in Hdoc.
    destruct (all_writes t app rng 0 ((l1 ++ p1 :: l2) ++ p2 :: l3))
      as [w|?|?] eqn:Hall; [|done..].
    destruct (all_writes_split _ _ _ _ _ _ _ _ Hall)
      as (? & wp & ? & _ & _ & Hp & _).
    simpl in Hp. rewrite Hlen in Hp. by exists wp. }
  destruct (writes_tail _ _ _ _ _ Hws) as [ws0 Hws0]. fold key in Hws0.
  assert (Resources doc !! key = Some (serviceOf t p2)) as Hsvc.
  { eapply (Build_lookup_last_writer t rng app _ p2 l3 doc
              (ws0 ++ [(taskDefinitionId key, taskDefinitionOf t order p2)])
              []); [done|done| | |].
    - rewrite Hlen. fold order. rewrite Hws, Hws0.
      by rewrite <- app_assoc.
    - set_solver.
    - eapply Forall_impl; [done|]. by intros q [? _]. }
  split; [done|]. split.
  - eapply (Build_lookup_last_writer t rng app _ p2 l3 doc ws0
              [(key, serviceOf t p2)]); [done|done| | |].
    + rewrite Hlen. fold order. by rewrite Hws, Hws0.
    + simpl. rewrite list_elem_of_singleton.
      apply append_ne_self. done.
    + eapply Forall_impl; [done|]. by intros q [_ ?].
  - intros Hne. rewrite Hkey. fold key. rewrite Hsvc.
    intros [= Heq]. by apply serviceOf_type_inj in Heq.
Qed.

Lemma collision_later_process_wins_witness :
  ∃ doc,
    Build (Sample.template (Some Sample.zone)) Sample.forwards
      (Sample.app [Sample.process "a-b" ∅ ∅ None 104857600;
                   Sample.process "ab" ∅ ∅ Sample.http 209715200;
                   Sample.process "web" ∅ ∅ (Sample.https "iam-cert") 0])
      = Ok doc
    ∧ Resources doc !! "ab"
      = Some (serviceOf (Sample.template (Some Sample.zone))
                (Sample.process "ab" ∅ ∅ Sample.http 209715200)).
Proof.
  destruct (collision_later_process_wins
              (Sample.template (Some Sample.zone)) Sample.forwards
              (Sample.app [Sample.process "a-b" ∅ ∅ None 104857600;
                           Sample.process "ab" ∅ ∅ Sample.http 209715200;
                           Sample.process "web" ∅ ∅
                             (Sample.https "iam-cert") 0])
              [] (Sample.process "a-b" ∅ ∅ None 104857600)
              [] (Sample.process "ab" ∅ ∅ Sample.http 209715200)
              [Sample.process "web" ∅ ∅ (Sample.https "iam-cert") 0])
    as (doc & Hdoc & Hsvc & _).
  - reflexivity.
  - reflexivity.
  - left. by eexists _, _.
  - repeat constructor; vm_compute; intros Hin;
      repeat (apply elem_of_cons in Hin as [?|Hin]; [done|]);
      by apply elem_of_nil in Hin.
  - by exists doc.
Defined.

(** ** C3: determinism *)

Lemma forwards_valid : valid_range Sample.forwards.
Proof. by intros n m. Qed.

Lemma backwards_valid : valid_range Sample.backwards.
Proof. intros n m. apply reverse_Permutation. Qed.

(** C3 (counterexample).  For a process with the two variables A and B,
    visiting the map forwards and visiting it backwards are both possible
    for [range]; the two builds return documents whose environment lists
    are A, B and B, A: the list-valued node differs. *)
Lemma environment_order_differs :
  let app :=
    Sample.app [Sample.process "worker" {[ "A" := "1"; "B" := "2" ]} ∅
                  None 0] in
  valid_range Sample.forwards
  ∧ valid_range Sample.backwards
  ∧ ∃ doc1 doc2,
      Build (Sample.template None) Sample.forwards app = Ok doc1
      ∧ Build (Sample.template None) Sample.backwards app = Ok doc2
      ∧ environment_names <$> Resources doc1 !! "workerTaskDefinition"
        = Some ["A"; "B"]
      ∧ environment_names <$> Resources doc2 !! "workerTaskDefinition"
        = Some ["B"; "A"]
      ∧ doc1 ≠ doc2.
Proof.
  intros app. split; [apply forwards_valid|]. split; [apply backwards_valid|].
  eexists _, _. split; [reflexivity|]. split; [reflexivity|].
  assert (∀ d1 d2 : Document,
            environment_names <$> Resources d1 !! "workerTaskDefinition"
              = Some ["A"; "B"] →
            environment_names <$> Resources d2 !! "workerTaskDefinition"
              = Some ["B"; "A"] →
            d1 ≠ d2) as Hne.
  { intros d1 d2 H1 H2 ->. rewrite H1 in H2. discriminate H2. }
  assert (∀ P Q R : Prop, P → Q → (P → Q → R) → P ∧ Q ∧ R) as Hand by tauto.
  apply Hand; [vm_compute; reflexivity | vm_compute; reflexivity | apply Hne].
Qed.

Lemma resources_alike_refl r : resources_alike r r.
Proof.
  intros id. destruct (r !! id); constructor. apply alike_same.
Qed.

Lemma resources_alike_insert r1 r2 id v1 v2 :
  resource_alike v1 v2 → resources_alike r1 r2 →
  resources_alike (<[ id := v1 ]> r1) (<[ id := v2 ]> r2).
Proof.
  intros Hv Hr id'. destruct (decide (id = id')) as [->|Hne].
  - rewrite !lookup_insert_eq. by constructor.
  - rewrite !lookup_insert_ne by done. apply Hr.
Qed.

Lemma writes_alike_refl ws : writes_alike ws ws.
Proof.
  induction ws; constructor; [|done]. split; [done|apply alike_same].
Qed.

Lemma apply_writes_alike ws1 ws2 r1 r2 :
  writes_alike ws1 ws2 → resources_alike r1 r2 →
  resources_alike (apply_writes ws1 r1) (apply_writes ws2 r2).
Proof.
  intros Hws. revert r1 r2.
  induction Hws as [|[k1 v1] [k2 v2] ws1 ws2 [Hk Hv] Hws IH]; intros r1 r2 Hr;
    [done|].
  simpl in *. subst k2. apply IH. unfold assign. simpl.
  by apply resources_alike_insert.
Qed.

Lemma taskDefinitionOf_alike t order1 order2 p :
  order1 ≡ₚ order2 →
  resource_alike (taskDefinitionOf t order1 p) (taskDefinitionOf t order2 p).
Proof.
  intros Hperm. unfold taskDefinitionOf.
  destruct (scheduler.Exposure p).
  - apply alike_taskDefinition; [done|]. simpl.
    by rewrite Hperm.
  - apply alike_taskDefinition; [done|]. simpl.
    by rewrite Hperm.
Qed.

Lemma writes_alike_orders t app order1 order2 p :
  order1 ≡ₚ order2 →
  outcome_rel writes_alike (writes t app order1 p) (writes t app order2 p).
Proof.
  intros Hperm. unfold writes.
  pose proof (taskDefinitionOf_alike t order1 order2 p Hperm) as Htd.
  assert (writes_alike
            [ (taskDefinitionId (normalize (scheduler.Type_ p)),
               taskDefinitionOf t order1 p);
              (normalize (scheduler.Type_ p), serviceOf t p) ]
            [ (taskDefinitionId (normalize (scheduler.Type_ p)),
               taskDefinitionOf t order2 p);
              (normalize (scheduler.Type_ p), serviceOf t p) ]) as Htail.
  { repeat constructor; simpl; done || apply alike_same. }
  destruct (scheduler.Exposure p) as [e|]; [|by constructor].
  destruct (if decide (scheduler.Type_ p = "web")
            then cname_write t app (normalize (scheduler.Type_ p))
            else Ok []) as [dns|?|?]; simpl; constructor.
  repeat (constructor; [split; [done|apply alike_same]|]).
  apply Forall2_app; [apply writes_alike_refl|done].
Qed.

Lemma all_writes_alike t app rng1 rng2 n ps :
  valid_range rng1 → valid_range rng2 →
  outcome_rel writes_alike
    (all_writes t app rng1 n ps) (all_writes t app rng2 n ps).
Proof.
  intros H1 H2. revert n. induction ps as [|p ps IH]; intros n; simpl.
  - constructor. constructor.
  - assert (rng1 n (scheduler.Env p) ≡ₚ rng2 n (scheduler.Env p)) as Hperm
      by (etrans; [apply H1|symmetry; apply H2]).
    destruct (writes_alike_orders t app _ _ p Hperm); simpl;
      [|constructor..].
    destruct (IH (S n)); simpl; constructor.
    by apply Forall2_app.
Qed.

Lemma Permutation_short {A} (l1 l2 : list A) :
  l1 ≡ₚ l2 → (length l1 ≤ 1)%nat → l1 = l2.
Proof.
  intros Hperm Hlen. destruct l1 as [|x [|y l1]]; simpl in Hlen; [| |lia].
  - by apply Permutation_nil_l in Hperm.
  - by apply Permutation_singleton_l in Hperm.
Qed.

Lemma all_writes_same t app rng1 rng2 n ps :
  valid_range rng1 → valid_range rng2 →
  Forall (λ p, (size (scheduler.Env p) ≤ 1)%nat) ps →
  all_writes t app rng1 n ps = all_writes t app rng2 n ps.
Proof.
  intros H1 H2 Hall. revert n.
  induction Hall as [|p ps Hp Hall IH]; intros n; simpl; [done|].
  assert (rng1 n (scheduler.Env p) = rng2 n (scheduler.Env p)) as ->.
  { apply Permutation_short; [etrans; [apply H1|symmetry; apply H2]|].
    rewrite (Permutation_length (H1 n (scheduler.Env p))).
    by rewrite length_map_to_list. }
  by rewrite IH.
Qed.

(** C3 (amended).  Two builds from the same application, whatever the
    order in which each visits the environment maps, end alike: both
    panic, or both return documents with equal [Parameters], equal
    [Outputs] and, id by id, resources that are equal or are task
    definitions differing only in the order of the environment list.
    When no process has more than one environment variable, or when the
    two builds visit the maps in the same order, the outcomes are equal. *)
Theorem Build_deterministic_up_to_environment_order t rng1 rng2 app :
  valid_range rng1 → valid_range rng2 →
  outcome_rel document_alike (Build t rng1 app) (Build t rng2 app)
  ∧ (Forall (λ p, (size (scheduler.Env p) ≤ 1)%nat) (scheduler.Processes app) →
     Build t rng1 app = Build t rng2 app)
  ∧ ((∀ n m, rng1 n m = rng2 n m) → Build t rng1 app = Build t rng2 app).
Proof.
  intros H1 H2. split; [|split].
  - rewrite !Build_writes.
    destruct (all_writes_alike t app rng1 rng2 0 (scheduler.Processes app)
                H1 H2) as [ws1 ws2 Hws| |]; simpl; constructor.
    split; [done|]. split; [done|]. simpl.
    apply apply_writes_alike; [done|apply resources_alike_refl].
  - intros Hsmall. rewrite !Build_writes.
    by rewrite (all_writes_same t app rng1 rng2 0 _ H1 H2 Hsmall).
  - intros Hsame. rewrite !Build_writes.
    assert (∀ n ps, all_writes t app rng1 n ps = all_writes t app rng2 n ps)
      as Hall.
    { intros n ps. revert n. induction ps as [|p ps IH]; intros n; simpl;
        [done|]. by rewrite Hsame, IH. }
    by rewrite Hall.
Qed.

Lemma Build_deterministic_up_to_environment_order_witness :
  outcome_rel document_alike
    (Build (Sample.template (Some Sample.zone)) Sample.forwards
       (Sample.app [Sample.process "web" {[ "A" := "1"; "B" := "2" ]} ∅
                      Sample.http 0]))
    (Build (Sample.template (Some Sample.zone)) Sample.backwards
       (Sample.app [Sample.process "web" {[ "A" := "1"; "B" := "2" ]} ∅
                      Sample.http 0])).
Proof.
  apply (Build_deterministic_up_to_environment_order
           (Sample.template (Some Sample.zone))
           Sample.forwards Sample.backwards).
  - intros n m. reflexivity.
  - intros n m. apply reverse_Permutation.
Defined.

(** ** C4: referential integrity *)

Lemma elem_of_map_union f m id :
  id ∈ map_union f m ↔ ∃ k v, m !! k = Some v ∧ id ∈ f v.
Proof.
  unfold map_union.
  apply (map_fold_weak_ind
           (λ r m, id ∈ r ↔ ∃ k v, m !! k = Some v ∧ id ∈ f v)).
  - split; [set_solver|]. intros (k & v & Hl & _).
    by rewrite lookup_empty in Hl.
  - intros k v m' r Hk IH. rewrite elem_of_union, IH. split.
    + intros [Hv|(k' & v' & Hl & Hv)].
      * exists k, v. by rewrite lookup_insert_eq.
      * exists k', v'. split; [|done].
        rewrite lookup_insert_ne; [done|]. intros ->. congruence.
    + intros (k' & v' & Hl & Hv).
      apply lookup_insert_Some in Hl as [[-> ->]|[_ Hl]]; [by left|].
      right. by exists k', v'.
Qed.

Lemma refs_VMap m : refs (VMap m) = direct_refs m ∪ map_union refs m.
Proof. reflexivity. Qed.

Lemma refs_VList l : refs (VList l) = ⋃ (refs <$> l).
Proof. reflexivity. Qed.

Lemma direct_refs_insert k v m :
  k ≠ "Ref" → k ≠ "Fn::GetAtt" → direct_refs (<[ k := v ]> m) = direct_refs m.
Proof. intros. unfold direct_refs. by rewrite !lookup_insert_ne. Qed.

Lemma direct_refs_singleton k v :
  k ≠ "Ref" → k ≠ "Fn::GetAtt" → direct_refs {[ k := v ]} = ∅.
Proof.
  intros. unfold direct_refs. rewrite !lookup_singleton_ne by done.
  set_solver.
Qed.

Lemma refs_insert_subseteq k v m ids :
  k ≠ "Ref" → k ≠ "Fn::GetAtt" →
  refs v ⊆ ids → refs (VMap m) ⊆ ids → refs (VMap (<[ k := v ]> m)) ⊆ ids.
Proof.
  intros H1 H2 Hv Hm id. rewrite !refs_VMap in *.
  rewrite direct_refs_insert by done.
  rewrite elem_of_union, elem_of_map_union.
  intros [Hd|(k' & v' & Hl & Hin)].
  - apply Hm. set_solver.
  - apply lookup_insert_Some in Hl as [[-> ->]|[_ Hl]]; [by apply Hv|].
    apply Hm. rewrite elem_of_union, elem_of_map_union. right.
    by exists k', v'.
Qed.

Lemma refs_singleton_subseteq k v ids :
  k ≠ "Ref" → k ≠ "Fn::GetAtt" →
  refs v ⊆ ids → refs (VMap {[ k := v ]}) ⊆ ids.
Proof.
  intros H1 H2 Hv id. rewrite refs_VMap, direct_refs_singleton by done.
  rewrite elem_of_union, elem_of_map_union.
  intros [Hd|(k' & v' & Hl & Hin)]; [set_solver|].
  apply lookup_singleton_Some in Hl as [-> ->]. by apply Hv.
Qed.

Lemma refs_VList_subseteq l ids :
  Forall (λ v, refs v ⊆ ids) l → refs (VList l) ⊆ ids.
Proof.
  rewrite refs_VList. induction 1; simpl; set_solver.
Qed.

Lemma refs_Ref id : refs (Ref id) = {[ id ]}.
Proof.
  unfold Ref. rewrite refs_VMap. apply set_eq. intros id'.
  rewrite elem_of_union, elem_of_map_union. unfold direct_refs.
  rewrite lookup_singleton_eq.
  rewrite (lookup_singleton_ne "Ref" "Fn::GetAtt") by done.
  split.
  - intros [?|(k & v & Hl & Hin)]; [set_solver|].
    apply lookup_singleton_Some in Hl as [<- <-]. set_solver.
  - intros ?. left. set_solver.
Qed.

Lemma refs_GetAtt id attr : refs (GetAtt id attr) = {[ id ]}.
Proof.
  unfold GetAtt. rewrite refs_VMap. apply set_eq. intros id'.
  rewrite elem_of_union, elem_of_map_union. unfold direct_refs.
  rewrite lookup_singleton_eq.
  rewrite (lookup_singleton_ne "Fn::GetAtt" "Ref") by done.
  split.
  - intros [?|(k & v & Hl & Hin)]; [set_solver|].
    apply lookup_singleton_Some in Hl as [<- <-].
    simpl in Hin. set_solver.
  - intros ?. left. set_solver.
Qed.

Lemma refs_VStrings l : refs (VStrings l) = ∅.
Proof.
  unfold VStrings. rewrite refs_VList.
  induction l; simpl; [done|set_solver].
Qed.

(** A map of strings with no entry named ["Ref"] holds no reference. *)
Lemma refs_string_map (m : gmap string string) :
  m !! "Ref" = None → refs (VMap (VString <$> m)) = ∅.
Proof.
  intros Hm. rewrite refs_VMap. apply set_eq. intros id.
  rewrite elem_of_union, elem_of_map_union. unfold direct_refs.
  rewrite !lookup_fmap, Hm. simpl.
  split; [|set_solver].
  intros [Hd|(k & v & Hl & Hin)].
  - destruct (m !! "Fn::GetAtt"); set_solver.
  - apply lookup_fmap_Some in Hl as (s & <- & _). set_solver.
Qed.

Lemma refs_empty : refs (VMap ∅) = ∅.
Proof. reflexivity. Qed.

#[local] Ltac refs_step :=
  lazymatch goal with
  | |- refs (VMap (insert _ _ _)) ⊆ _ =>
      apply refs_insert_subseteq; [done|done| |]
  | |- refs (VMap (singletonM _ _)) ⊆ _ =>
      apply refs_singleton_subseteq; [done|done|]
  | |- refs (VMap ∅) ⊆ _ => rewrite refs_empty
  | |- refs (VList (cons _ _)) ⊆ _ =>
      apply refs_VList_subseteq; repeat constructor
  | |- refs (VList nil) ⊆ _ => apply refs_VList_subseteq; constructor
  | |- refs (Ref _) ⊆ _ => rewrite refs_Ref
  | |- refs (GetAtt _ _) ⊆ _ => rewrite refs_GetAtt
  | |- refs (VStrings _) ⊆ _ => rewrite refs_VStrings
  | |- refs (VString _) ⊆ _ => change (refs (VString _)) with (∅ : gset string)
  | |- refs (VInt _) ⊆ _ => change (refs (VInt _)) with (∅ : gset string)
  | |- refs (VBool _) ⊆ _ => change (refs (VBool _)) with (∅ : gset string)
  end.

#[local] Ltac refs_bound := repeat refs_step; try set_solver.

Lemma properties_instancePortResource t :
  properties (instancePortResource t) = Some (instancePortProperties t).
Proof. reflexivity. Qed.

Lemma properties_loadBalancerResource p scheme sg subnets listeners :
  properties (loadBalancerResource p scheme sg subnets listeners)
  = Some (VMap (loadBalancerProperties p scheme sg subnets listeners)).
Proof. reflexivity. Qed.

Lemma properties_recordSetResource zoneId name loadBalancer :
  properties (recordSetResource zoneId name loadBalancer)
  = Some (VMap (recordSetProperties zoneId name loadBalancer)).
Proof. reflexivity. Qed.

Lemma properties_taskDefinitionResource cd portMappings :
  properties (taskDefinitionResource cd portMappings)
  = Some (VMap (taskDefinitionProperties cd portMappings)).
Proof. reflexivity. Qed.

Lemma properties_serviceResource t p loadBalancers taskDefinition :
  properties (serviceResource t p loadBalancers taskDefinition)
  = Some (VMap (serviceProperties t p loadBalancers taskDefinition)).
Proof. reflexivity. Qed.

Lemma resolved_instancePortResource t ids :
  resolved ids (instancePortResource t).
Proof.
  intros props. rewrite properties_instancePortResource. intros [= <-].
  unfold instancePortProperties. refs_bound.
Qed.

Lemma resolved_loadBalancerResource p scheme sg subnets instancePort e ids :
  instancePort ∈ ids →
  resolved ids
    (loadBalancerResource p scheme sg subnets (buildListeners instancePort e)).
Proof.
  intros Hin props. rewrite properties_loadBalancerResource. intros [= <-].
  unfold loadBalancerProperties, buildListeners, plainListener, certListener.
  destruct (scheduler.ExpType e); simpl app; refs_bound.
Qed.

Lemma resolved_recordSetResource zoneId name loadBalancer ids :
  loadBalancer ∈ ids →
  resolved ids (recordSetResource zoneId name loadBalancer).
Proof.
  intros Hin props. rewrite properties_recordSetResource. intros [= <-].
  unfold recordSetProperties. refs_bound.
Qed.

Lemma resolved_serviceResource t p loadBalancers taskDefinition ids :
  taskDefinition ∈ ids →
  refs (VList loadBalancers) ⊆ ids →
  resolved ids (serviceResource t p loadBalancers taskDefinition).
Proof.
  intros Hin Hlbs props. rewrite properties_serviceResource. intros [= <-].
  unfold serviceProperties. case_decide; refs_bound.
Qed.

Lemma refs_KeyValuePairs kvs ids :
  refs (VList (KeyValuePair_value <$> kvs)) ⊆ ids.
Proof.
  apply refs_VList_subseteq.
  induction kvs as [|kv kvs IH]; constructor; [|done].
  unfold KeyValuePair_value. refs_bound.
Qed.

Lemma refs_Ulimits us ids : refs (VList (Ulimit_value <$> us)) ⊆ ids.
Proof.
  apply refs_VList_subseteq.
  induction us as [|u us IH]; constructor; [|done].
  unfold Ulimit_value. refs_bound.
Qed.

Lemma resolved_taskDefinitionResource cd portMappings ids :
  ecs.DockerLabels cd !! "Ref" = None →
  no_refs (ecs.LogConfiguration cd) →
  refs (VList portMappings) ⊆ ids →
  resolved ids (taskDefinitionResource cd portMappings).
Proof.
  intros Hlabels Hlc Hpm props.
  rewrite properties_taskDefinitionResource. intros [= <-].
  unfold taskDefinitionProperties, containerDefinitionMap.
  pose proof (refs_KeyValuePairs (ecs.Environment cd) ids) as Henv.
  pose proof (refs_Ulimits (ecs.Ulimits cd) ids) as Hul.
  assert (refs (VMap (VString <$> ecs.DockerLabels cd)) ⊆ ids) as Hl
    by (rewrite refs_string_map by done; set_solver).
  destruct (ecs.LogConfiguration cd) as [lc|]; simpl in Hlc.
  - assert (refs lc ⊆ ids) as Hlc' by (rewrite Hlc; set_solver).
    refs_bound.
  - refs_bound.
Qed.

Lemma all_writes_elem t app rng n ps ws w :
  all_writes t app rng n ps = Ok ws → w ∈ ws →
  ∃ p m wp,
    p ∈ ps ∧ writes t app (rng m (scheduler.Env p)) p = Ok wp ∧ w ∈ wp.
Proof.
  revert n ws. induction ps as [|q ps IH]; intros n ws; simpl.
  - intros [= <-] Hin. by apply elem_of_nil in Hin.
  - destruct (writes t app (rng n (scheduler.Env q)) q) as [wq|?|?] eqn:Hq;
      [|done..].
    simpl.
    destruct (all_writes t app rng (S n) ps) as [ws'|?|?] eqn:Hps; [|done..].
    simpl. intros [= <-] Hin. apply elem_of_app in Hin as [Hin|Hin].
    + exists q, n, wq. split; [by left|done].
    + destruct (IH _ _ Hps Hin) as (p & m & wp & Hp & Hw & Hwp).
      exists p, m, wp. split; [by right|done].
Qed.

Lemma writes_resolved t app order p ws id res :
  scheduler.Labels p !! "Ref" = None →
  no_refs (LogConfiguration t) →
  writes t app order p = Ok ws → (id, res) ∈ ws →
  resolved (list_to_set (assigned_ids p)) res.
Proof.
  intros Hlabels Hlc Hw Hin.
  destruct (writes_elem _ _ _ _ _ _ _ Hw Hin)
    as [[_ ->]|[[_ ->]|(e & He & [[_ ->]|[[_ ->]|(Hweb & _ & Hrec)]])]].
  - unfold taskDefinitionOf, assigned_ids.
    destruct (scheduler.Exposure p).
    + apply resolved_taskDefinitionResource; [done|done|].
      unfold portMapping. refs_bound.
    + apply resolved_taskDefinitionResource; [done|done|]. refs_bound.
  - unfold serviceOf, assigned_ids.
    destruct (scheduler.Exposure p).
    + apply resolved_serviceResource; [set_solver|].
      unfold attachment. refs_bound.
    + apply resolved_serviceResource; [set_solver|]. refs_bound.
  - apply resolved_instancePortResource.
  - unfold loadBalancerOf. apply resolved_loadBalancerResource.
    unfold assigned_ids. rewrite He. set_solver.
  - destruct Hrec as (zid & zname & _ & ->).
    apply resolved_recordSetResource.
    unfold assigned_ids. rewrite He, Hweb. set_solver.
Qed.

(** C4 (counterexample).  A worker whose only Docker label is named "Ref"
    and has the value "missing": the properties of its task definition
    contain the map that binds "Ref" to "missing", a direct reference, and
    the document has no resource of that id. *)
Lemma label_named_Ref_dangles :
  ∃ doc res props,
    Build (Sample.template None) Sample.forwards
      (Sample.app [Sample.labelled]) = Ok doc
    ∧ Resources doc !! "workerTaskDefinition" = Some res
    ∧ properties res = Some props
    ∧ "missing" ∈ refs props
    ∧ "missing" ∉ dom (Resources doc).
Proof.
  eexists _, _, _. split; [reflexivity|].
  split; [vm_compute; reflexivity|]. split; [vm_compute; reflexivity|].
  split.
  - apply (bool_decide_unpack _). vm_compute. exact I.
  - apply (bool_decide_unpack _). vm_compute. exact I.
Qed.

(** C4 (amended).  Provided no process has a Docker label named "Ref" and
    the logging configuration given to the builder holds no reference of
    its own, every "Ref" and every "Fn::GetAtt" found anywhere in the
    properties of a resource of a document [Build] returns names a key of
    the [Resources] mapping of that document. *)
Theorem references_resolve t rng app doc :
  Forall (λ p, scheduler.Labels p !! "Ref" = None) (scheduler.Processes app) →
  no_refs (LogConfiguration t) →
  Build t rng app = Ok doc →
  ∀ id res props target,
    Resources doc !! id = Some res →
    properties res = Some props →
    target ∈ refs props →
    target ∈ dom (Resources doc).
Proof.
  intros Hlabels Hlc HB id res props target Hres Hprops Htarget.
  rewrite Build_writes in HB.
  destruct (all_writes t app rng 0 (scheduler.Processes app)) as [ws|?|?]
    eqn:Hall; [|done..].
  simpl in HB. injection HB as <-. simpl in *.
  apply apply_writes_lookup_Some in Hres as [Hin|Hin];
    [|by rewrite lookup_empty in Hin].
  destruct (all_writes_elem _ _ _ _ _ _ _ Hall Hin)
    as (p & m & wp & Hp & Hw & Hwp).
  rewrite Forall_forall in Hlabels.
  pose proof (writes_resolved _ _ _ _ _ _ _ (Hlabels p Hp) Hlc Hw Hwp
                props Hprops target Htarget) as Hid.
  rewrite apply_writes_dom, (all_writes_ids _ _ _ _ _ _ Hall).
  apply elem_of_union_l, elem_of_list_to_set, list_elem_of_bind.
  exists p. split; [|done]. by apply elem_of_list_to_set in Hid.
Qed.

Lemma references_resolve_witness :
  ∃ doc,
    Build (Sample.template (Some Sample.zone)) Sample.forwards
      (Sample.app [Sample.process "web" {[ "RAILS_ENV" := "production" ]}
                     {[ "empire.app.name" := "acme-inc" ]}
                     (Sample.https "iam-cert") 536870912])
    = Ok doc
    ∧ ∀ id res props target,
        Resources doc !! id = Some res →
        properties res = Some props →
        target ∈ refs props →
        target ∈ dom (Resources doc).
Proof.
  destruct (Build_returns (Sample.template (Some Sample.zone)) Sample.forwards
      (Sample.app [Sample.process "web" {[ "RAILS_ENV" := "production" ]}
                     {[ "empire.app.name" := "acme-inc" ]}
                     (Sample.https "iam-cert") 536870912]))
    as [doc Hdoc].
  { left. by eexists _, _. }
  exists doc. split; [exact Hdoc|].
  apply (references_resolve (Sample.template (Some Sample.zone))
           Sample.forwards
           (Sample.app [Sample.process "web"
                          {[ "RAILS_ENV" := "production" ]}
                          {[ "empire.app.name" := "acme-inc" ]}
                          (Sample.https "iam-cert") 536870912]) doc).
  - repeat constructor.
  - exact I.
  - exact Hdoc.
Defined.

(** ** C5: the DNS record *)

Lemma append_ne_short (s suffix short : string) :
  (String.length short < String.length suffix)%nat → s +:+ suffix ≠ short.
Proof.
  intros Hlen Heq. apply (f_equal String.length) in Heq.
  rewrite length_append in Heq. lia.
Qed.

Lemma CNAME_assigned_iff p :
  normalize (scheduler.Type_ p) ≠ "CNAME" →
  "CNAME" ∈ assigned_ids p ↔ primary_exposed p.
Proof.
  intros Hkey. unfold assigned_ids, primary_exposed.
  assert (instancePortId (normalize (scheduler.Type_ p)) ≠ "CNAME") as H1
    by (rewrite instancePortId_eq; apply append_ne_short; simpl; lia).
  assert (loadBalancerId (normalize (scheduler.Type_ p)) ≠ "CNAME") as H2
    by (apply append_ne_short; simpl; lia).
  assert (taskDefinitionId (normalize (scheduler.Type_ p)) ≠ "CNAME") as H3
    by (apply append_ne_short; simpl; lia).
  destruct (scheduler.Exposure p) as [e|].
  - case_decide; set_solver.
  - split; [set_solver|]. by intros [_ [? ?]].
Qed.

Lemma writes_record_set t app order p ws id res zoneId zoneName :
  HostedZone t =
    Some {| route53.Id := Some zoneId; route53.Name := Some zoneName |} →
  normalize (scheduler.Type_ p) ≠ "CNAME" →
  writes t app order p = Ok ws → (id, res) ∈ ws →
  (id = "CNAME"
   ∧ res = recordSetResource zoneId
             (scheduler.Name app +:+ "." +:+ zoneName) (loadBalancerId "web"))
  ∨ (id ≠ "CNAME" ∧ ¬ is_record_set res).
Proof.
  intros Hz Hkey Hw Hin.
  destruct (writes_elem _ _ _ _ _ _ _ Hw Hin)
    as [[-> ->]|[[-> ->]|(e & He & [[-> ->]|[[-> ->]|(Hweb & -> & Hrec)]])]].
  - right. split; [apply append_ne_short; simpl; lia|].
    unfold taskDefinitionOf. by destruct (scheduler.Exposure p).
  - right. split; [done|].
    unfold serviceOf. by destruct (scheduler.Exposure p).
  - right. split; [|done].
    rewrite instancePortId_eq. apply append_ne_short. simpl. lia.
  - right. split; [apply append_ne_short; simpl; lia|done].
  - left. split; [done|].
    destruct Hrec as (zid & zname & Hz' & ->). congruence.
Qed.

Lemma record_sets_apply_writes ws rec :
  Forall (λ w, (w.1 = "CNAME" ∧ w.2 = rec)
               ∨ (w.1 ≠ "CNAME" ∧ ¬ is_record_set w.2)) ws →
  is_record_set rec →
  record_sets (apply_writes ws ∅)
  = if decide ("CNAME" ∈ ws.*1) then {[ "CNAME" := rec ]} else ∅.
Proof.
  intros Hws Hrec. rewrite Forall_forall in Hws.
  apply map_eq. intros id. unfold record_sets.
  apply option_eq. intros res. rewrite map_lookup_filter_Some. simpl.
  split.
  - intros [Hl Hdns]. apply apply_writes_lookup_Some in Hl as [Hin|Hl];
      [|by rewrite lookup_empty in Hl].
    destruct (Hws _ Hin) as [[Hid Hres]|[_ Hno]]; [|done].
    simpl in *. subst id res. rewrite decide_True.
    + by rewrite lookup_singleton_eq.
    + apply list_elem_of_fmap. by exists ("CNAME", rec).
  - case_decide as Hin.
    + intros Hl. apply lookup_singleton_Some in Hl as [<- <-].
      split; [|done].
      assert ("CNAME" ∈ dom (apply_writes ws ∅)) as Hdom
        by (rewrite apply_writes_dom; set_solver).
      apply elem_of_dom in Hdom as [res Hres]. rewrite Hres. f_equal.
      apply apply_writes_lookup_Some in Hres as [Hres|Hres];
        [|by rewrite lookup_empty in Hres].
      destruct (Hws _ Hres) as [[_ Heq]|[Hne _]]; [done|]. by destruct Hne.
    + by rewrite lookup_empty.
Qed.

(** C5 (counterexample).  The process "web" is exposed and the hosted
    zone is configured, but a later process called "CNAME" has the key
    "CNAME" too: its service replaces the DNS record, and the document
    [Build] returns holds no DNS record at all. *)
Lemma dns_record_overwritten :
  let web := Sample.process "web" ∅ ∅ Sample.http 0 in
  let other := Sample.process "CNAME" ∅ ∅ None 0 in
  primary_exposed web
  ∧ ∃ doc,
      Build (Sample.template (Some Sample.zone)) Sample.forwards
        (Sample.app [web; other]) = Ok doc
      ∧ record_sets (Resources doc) = ∅
      ∧ resourceType <$> Resources doc !! "CNAME"
        = Some (Some (VString "AWS::ECS::Service")).
Proof.
  intros web other. split; [split; [done|by eexists]|].
  eexists. split; [reflexivity|]. split; vm_compute; reflexivity.
Qed.

(** C5 (amended).  With the hosted zone configured and no process whose
    type normalises to "CNAME", the document [Build] returns holds a DNS
    record if and only if some process is named "web" and is exposed; it
    is then the only DNS record, it sits under the id "CNAME", its name is
    the application name, a dot and the name of the hosted zone, its type
    is CNAME, its time to live is 60 and its one resource record is a
    reference to the id of the load balancer of the "web" process. *)
Theorem dns_record_iff_primary_exposed t rng app zoneId zoneName :
  HostedZone t =
    Some {| route53.Id := Some zoneId; route53.Name := Some zoneName |} →
  Forall (λ p, normalize (scheduler.Type_ p) ≠ "CNAME")
    (scheduler.Processes app) →
  ∃ doc record,
    Build t rng app = Ok doc
    ∧ record_sets (Resources doc)
      = (if decide (Exists primary_exposed (scheduler.Processes app))
         then {[ "CNAME" := record ]} else ∅)
    ∧ is_record_set record
    ∧ (properties record ≫= field "Name")
      = Some (VString (scheduler.Name app +:+ "." +:+ zoneName))
    ∧ (properties record ≫= field "Type") = Some (VString "CNAME")
    ∧ (properties record ≫= field "TTL") = Some (VInt 60)
    ∧ (properties record ≫= field "ResourceRecords")
      = Some (VList [Ref (loadBalancerId (normalize "web"))]).
Proof.
  intros Hz Hkeys.
  set (record := recordSetResource zoneId
                   (scheduler.Name app +:+ "." +:+ zoneName)
                   (loadBalancerId "web")).
  destruct (Build_returns t rng app) as [doc Hdoc].
  { left. by exists zoneId, zoneName. }
  exists doc, record. split; [done|].
  split; [|by repeat split].
  rewrite Build_writes in Hdoc.
  destruct (all_writes t app rng 0 (scheduler.Processes app)) as [ws|?|?]
    eqn:Hall; [|done..].
  simpl in Hdoc. injection Hdoc as <-. simpl.
  rewrite Forall_forall in Hkeys.
  rewrite (record_sets_apply_writes ws record); [|..|done].
  - rewrite (all_writes_ids _ _ _ _ _ _ Hall).
    apply decide_ext. rewrite list_elem_of_bind, Exists_exists.
    split; intros (p & H1 & H2); exists p.
    + split; [done|]. by apply CNAME_assigned_iff; [apply Hkeys|].
    + split; [|done]. by apply CNAME_assigned_iff; [apply Hkeys|].
  - apply Forall_forall. intros [id res] Hin.
    destruct (all_writes_elem _ _ _ _ _ _ _ Hall Hin)
      as (p & m & wp & Hp & Hw & Hwp).
    exact (writes_record_set _ _ _ _ _ _ _ _ _ Hz (Hkeys p Hp) Hw Hwp).
Qed.

Lemma dns_record_iff_primary_exposed_witness :
  ∃ doc record,
    Build (Sample.template (Some Sample.zone)) Sample.forwards
      (Sample.app [Sample.process "web" ∅ ∅ Sample.http 0;
                   Sample.process "worker" ∅ ∅ None 0]) = Ok doc
    ∧ record_sets (Resources doc) = {[ "CNAME" := record ]}
    ∧ (properties record ≫= field "Name")
      = Some (VString "acme-inc.empire.").
Proof.
  destruct (dns_record_iff_primary_exposed
              (Sample.template (Some Sample.zone)) Sample.forwards
              (Sample.app [Sample.process "web" ∅ ∅ Sample.http 0;
                           Sample.process "worker" ∅ ∅ None 0])
              "Z3DG6IL3SJCGPX" "empire.")
    as (doc & record & Hdoc & Hrecs & _ & Hname & _).
  - reflexivity.
  - repeat constructor; by vm_compute.
  - exists doc, record. split; [exact Hdoc|]. split; [|exact Hname].
    rewrite Hrecs. apply decide_True.
    apply Exists_cons_hd. split; [reflexivity|]. by eexists.
Defined.

(** ** What one iteration leaves in the resources *)

Lemma writes_exposed t app order p e ws :
  scheduler.Exposure p = Some e →
  writes t app order p = Ok ws →
  ∃ dns,
    Forall (λ w, w.1 = "CNAME") dns
    ∧ ws = ([ (instancePortId (normalize (scheduler.Type_ p)),
               instancePortResource t);
              (loadBalancerId (normalize (scheduler.Type_ p)),
               loadBalancerOf t p e) ]
            ++ dns
            ++ [ (taskDefinitionId (normalize (scheduler.Type_ p)),
                  taskDefinitionOf t order p);
                 (normalize (scheduler.Type_ p), serviceOf t p) ])%list.
Proof.
  intros He. unfold writes. rewrite He.
  case_decide.
  - unfold cname_write.
    destruct (HostedZone t) as [[[zid|] [zname|]]|]; try done.
    simpl. intros [= <-]. eexists [_]. split; [|done]. by repeat constructor.
  - simpl. intros [= <-]. exists []. split; [constructor|done].
Qed.

Lemma writes_unexposed t app order p :
  scheduler.Exposure p = None →
  writes t app order p
  = Ok [ (taskDefinitionId (normalize (scheduler.Type_ p)),
          taskDefinitionOf t order p);
         (normalize (scheduler.Type_ p), serviceOf t p) ].
Proof. intros He. unfold writes. by rewrite He. Qed.

Lemma iteration_returns t app order p resources :
  zone_configured t ∨ ¬ primary_exposed p →
  ∃ ws,
    writes t app order p = Ok ws
    ∧ iteration t app order p resources = Ok (apply_writes ws resources).
Proof.
  intros Hok. destruct (writes_returns t app order p Hok) as [ws Hws].
  exists ws. split; [done|]. by rewrite iteration_writes, Hws.
Qed.

Lemma iteration_service t app order p resources resources' :
  iteration t app order p resources = Ok resources' →
  resources' !! normalize (scheduler.Type_ p) = Some (serviceOf t p)
  ∧ resources' !! taskDefinitionId (normalize (scheduler.Type_ p))
    = Some (taskDefinitionOf t order p).
Proof.
  rewrite iteration_writes.
  destruct (writes t app order p) as [ws|?|?] eqn:Hws; [|done..].
  simpl. intros [= <-].
  destruct (writes_tail _ _ _ _ _ Hws) as [ws0 ->]. split.
  - rewrite apply_writes_app. simpl. unfold assign. simpl.
    by rewrite lookup_insert_eq.
  - rewrite apply_writes_app. simpl. unfold assign. simpl.
    rewrite lookup_insert_ne, lookup_insert_eq; [done|].
    intros Heq. symmetry in Heq.
    exact (append_ne_self _ "TaskDefinition" ltac:(done) Heq).
Qed.

Lemma iteration_exposed t app order p e resources resources' :
  scheduler.Exposure p = Some e →
  iteration t app order p resources = Ok resources' →
  resources' !! loadBalancerId (normalize (scheduler.Type_ p))
    = Some (loadBalancerOf t p e)
  ∧ resources' !! instancePortId (normalize (scheduler.Type_ p))
    = Some (instancePortResource t).
Proof.
  intros He. rewrite iteration_writes.
  destruct (writes t app order p) as [ws|?|?] eqn:Hws; [|done..].
  simpl. intros [= <-].
  destruct (writes_exposed _ _ _ _ _ _ He Hws) as (dns & Hdns & ->).
  set (key := normalize (scheduler.Type_ p)).
  assert (∀ suffix, (5 < String.length suffix)%nat →
            key +:+ suffix ∉ dns.*1) as Hnotdns.
  { intros suffix Hlen Hin. apply list_elem_of_fmap in Hin as (w & Hw & Hin).
    rewrite Forall_forall in Hdns. rewrite (Hdns w Hin) in Hw.
    exact (append_ne_short key suffix "CNAME" Hlen Hw). }
  split.
  - apply (apply_writes_lookup_last [_]).
    rewrite fmap_app, elem_of_app. intros [Hin|Hin].
    + apply (Hnotdns "LoadBalancer"); [simpl; lia|done].
    + simpl in Hin. apply elem_of_cons in Hin as [Hin|Hin].
      * exact (append_ne_suffix key key "LoadBalancer" "TaskDefinition"
                 eq_refl ltac:(done) Hin).
      * apply list_elem_of_singleton in Hin.
        exact (append_ne_self key "LoadBalancer" ltac:(done) Hin).
  - apply (apply_writes_lookup_last []).
    rewrite instancePortId_eq. simpl.
    rewrite elem_of_cons, fmap_app, elem_of_app.
    intros [Hin|[Hin|Hin]].
    + exact (append_ne_suffix key key "8080InstancePort" "LoadBalancer"
               eq_refl ltac:(done) Hin).
    + apply (Hnotdns "8080InstancePort"); [simpl; lia|done].
    + simpl in Hin. apply elem_of_cons in Hin as [Hin|Hin].
      * exact (append_ne_suffix key key "8080InstancePort" "TaskDefinition"
                 eq_refl ltac:(done) Hin).
      * apply list_elem_of_singleton in Hin.
        exact (append_ne_self key "8080InstancePort" ltac:(done) Hin).
Qed.

(** The iteration of a process inside a build that returns. *)
Lemma Build_iteration t rng app l1 p l3 doc :
  scheduler.Processes app = (l1 ++ p :: l3)%list →
  Build t rng app = Ok doc →
  ∃ ws, writes t app (rng (length l1) (scheduler.Env p)) p = Ok ws.
Proof.
  intros Hps HB. rewrite Build_writes, Hps in HB.
  destruct (all_writes t app rng 0 (l1 ++ p :: l3)) as [w|?|?] eqn:Hall;
    [|done..].
  destruct (all_writes_split _ _ _ _ _ _ _ _ Hall)
    as (? & wp & ? & _ & _ & Hp & _).
  by exists wp.
Qed.

(** What an iteration left under an id is in the document unless a later
    iteration assigns the id. *)
Lemma Build_keeps_iteration t rng app l1 p l3 doc resources' id res :
  scheduler.Processes app = (l1 ++ p :: l3)%list →
  Build t rng app = Ok doc →
  iteration t app (rng (length l1) (scheduler.Env p)) p ∅ = Ok resources' →
  resources' !! id = Some res →
  Forall (λ q, id ∉ assigned_ids q) l3 →
  Resources doc !! id = Some res.
Proof.
  intros Hps HB Hit Hres Hl3. rewrite iteration_writes in Hit.
  destruct (writes t app (rng (length l1) (scheduler.Env p)) p) as [wp|?|?]
    eqn:Hwp; [|done..].
  simpl in Hit. injection Hit as <-.
  rewrite Build_writes, Hps in HB.
  destruct (all_writes t app rng 0 (l1 ++ p :: l3)) as [ws|?|?] eqn:Hall;
    [|done..].
  simpl in HB. injection HB as <-. simpl.
  destruct (all_writes_split _ _ _ _ _ _ _ _ Hall)
    as (ws1 & wp' & ws3 & -> & _ & Hp & H3).
  simpl in Hp. rewrite Hwp in Hp. injection Hp as <-.
  rewrite app_assoc, apply_writes_app.
  rewrite apply_writes_lookup_notin.
  - rewrite apply_writes_app.
    destruct (decide (id ∈ wp.*1)) as [Hin|Hnot].
    + clear -Hres Hin. revert Hres Hin.
      generalize (apply_writes ws1 ∅). generalize (∅ : gmap string value).
      induction wp as [|[k v] wp IH] using rev_ind; intros r0 r Hres Hin.
      * by apply elem_of_nil in Hin.
      * rewrite apply_writes_app in *. simpl in *. unfold assign in *.
        simpl in *. destruct (decide (k = id)) as [->|Hne].
        -- rewrite lookup_insert_eq in *. done.
        -- rewrite lookup_insert_ne in * by done.
           apply (IH r0); [done|].
           rewrite fmap_app, elem_of_app in Hin. destruct Hin as [?|Hin];
             [done|]. simpl in Hin. apply list_elem_of_singleton in Hin.
           by destruct Hne.
    + rewrite apply_writes_lookup_notin in Hres by done.
      by rewrite lookup_empty in Hres.
  - rewrite (all_writes_ids _ _ _ _ _ _ H3). intros Hin.
    apply list_elem_of_bind in Hin as (q & Hq & Hql).
    rewrite Forall_forall in Hl3. by apply (Hl3 q).
Qed.

(** ** C6: listeners *)

Lemma listeners_of_loadBalancerOf t p e :
  properties (loadBalancerOf t p e) ≫= field "Listeners"
  = Some (VList (buildListeners
                   (instancePortId (normalize (scheduler.Type_ p))) e)).
Proof. reflexivity. Qed.

(** C6.  The load balancer that the iteration for an exposed process
    assigns has, for the HTTPS variant, exactly two listeners, and for
    every other variant exactly one.  Each listener has load-balancer port
    80 and takes its instance port from the attribute lookup
    [Fn::GetAtt] on the instance-port resource of the process, which the
    same iteration assigns; of the two listeners of the HTTPS variant the
    second, and only the second, carries the certificate.  The document
    [Build] returns holds this load balancer under its id unless a later
    process assigns that id. *)
Theorem listeners_follow_exposure_variant t app order p e :
  scheduler.Exposure p = Some e →
  zone_configured t ∨ ¬ primary_exposed p →
  let key := normalize (scheduler.Type_ p) in
  let port := GetAtt (instancePortId key) "InstancePort" in
  ∃ lb listeners,
    is_type "AWS::ElasticLoadBalancing::LoadBalancer" lb
    ∧ (properties lb ≫= field "Listeners") = Some (VList listeners)
    ∧ Forall (λ l, field "LoadBalancerPort" l = Some (VInt 80)
                   ∧ field "InstancePort" l = Some port) listeners
    ∧ match scheduler.ExpType e with
      | scheduler.HTTPSExposure cert =>
          ∃ l1 l2,
            listeners = [l1; l2]
            ∧ field "SSLCertificateId" l1 = None
            ∧ field "SSLCertificateId" l2 = Some (VString cert)
      | _ => ∃ l1, listeners = [l1] ∧ field "SSLCertificateId" l1 = None
      end
    ∧ (∀ resources, ∃ resources' instancePort,
         iteration t app order p resources = Ok resources'
         ∧ resources' !! loadBalancerId key = Some lb
         ∧ resources' !! instancePortId key = Some instancePort
         ∧ is_type "Custom::InstancePort" instancePort)
    ∧ (∀ rng l1 l3 doc,
         scheduler.Processes app = (l1 ++ p :: l3)%list →
         order = rng (length l1) (scheduler.Env p) →
         Build t rng app = Ok doc →
         Forall (λ q, loadBalancerId key ∉ assigned_ids q) l3 →
         Resources doc !! loadBalancerId key = Some lb).
Proof.
  intros He Hok key port.
  assert (∀ resources, ∃ resources' instancePort,
            iteration t app order p resources = Ok resources'
            ∧ resources' !! loadBalancerId key = Some (loadBalancerOf t p e)
            ∧ resources' !! instancePortId key = Some instancePort
            ∧ is_type "Custom::InstancePort" instancePort) as Hit.
  { intros resources.
    destruct (iteration_returns t app order p resources Hok)
      as (ws & _ & Hit).
    destruct (iteration_exposed _ _ _ _ _ _ _ He Hit) as [Hlb Hip].
    by exists (apply_writes ws resources), (instancePortResource t). }
  exists (loadBalancerOf t p e),
    (buildListeners (instancePortId key) e).
  split; [done|]. split; [apply listeners_of_loadBalancerOf|].
  split; [|split; [|split; [done|]]].
  - unfold buildListeners.
    destruct (scheduler.ExpType e); repeat constructor.
  - unfold buildListeners.
    destruct (scheduler.ExpType e); by eexists _, _ || by eexists.
  - intros rng l1 l3 doc Hps -> HB Hl3.
    destruct (Hit ∅) as (resources' & ? & Hiter & Hlb & _).
    by eapply Build_keeps_iteration.
Qed.

Lemma listeners_follow_exposure_variant_witness :
  ∃ lb l1 l2,
    (properties lb ≫= field "Listeners") = Some (VList [l1; l2])
    ∧ field "SSLCertificateId" l1 = None
    ∧ field "SSLCertificateId" l2 = Some (VString "iam-cert")
    ∧ ∃ resources',
        iteration (Sample.template (Some Sample.zone)) (Sample.app []) []
          (Sample.process "web" ∅ ∅ (Sample.https "iam-cert") 0) ∅
        = Ok resources'
        ∧ resources' !! "webLoadBalancer" = Some lb.
Proof.
  destruct (listeners_follow_exposure_variant
              (Sample.template (Some Sample.zone)) (Sample.app []) []
              (Sample.process "web" ∅ ∅ (Sample.https "iam-cert") 0)
              {| scheduler.External := true;
                 scheduler.ExpType := scheduler.HTTPSExposure "iam-cert" |})
    as (lb & listeners & _ & Hls & _ & (l1 & l2 & -> & H1 & H2) & Hit & _).
  - reflexivity.
  - left. by eexists _, _.
  - exists lb, l1, l2. split; [exact Hls|]. split; [exact H1|].
    split; [exact H2|].
    destruct (Hit ∅) as (resources' & _ & Hiter & Hlb & _).
    exists resources'. split; [exact Hiter|exact Hlb].
Defined.

(** ** C7: processes without exposure *)

Lemma attachments_of_serviceResource t p loadBalancers taskDefinition :
  properties (serviceResource t p loadBalancers taskDefinition)
    ≫= field "LoadBalancers"
  = Some (VList loadBalancers).
Proof.
  rewrite properties_serviceResource. simpl. unfold serviceProperties.
  case_decide; by simplify_map_eq.
Qed.

Lemma role_of_serviceResource t p loadBalancers taskDefinition :
  properties (serviceResource t p loadBalancers taskDefinition)
    ≫= field "Role"
  = if decide (loadBalancers = []) then None
    else Some (VString (ServiceRole t)).
Proof.
  rewrite properties_serviceResource. simpl. unfold serviceProperties.
  destruct loadBalancers; repeat case_decide; simpl in *;
    try lia; try done; by simplify_map_eq.
Qed.

(** The container definitions of a task definition. *)
Lemma containers_of_taskDefinitionResource cd portMappings :
  properties (taskDefinitionResource cd portMappings)
    ≫= field "ContainerDefinitions"
  = Some (VList [VMap (containerDefinitionMap cd portMappings)]).
Proof. reflexivity. Qed.

Lemma portMappings_of_containerDefinitionMap cd portMappings :
  containerDefinitionMap cd portMappings !! "PortMappings"
  = Some (VList portMappings).
Proof.
  unfold containerDefinitionMap.
  destruct (ecs.LogConfiguration cd); by simplify_map_eq.
Qed.

(** C7.  The iteration for a process without exposure assigns two ids
    and nothing else: a task definition whose container has no port
    mapping, and a service whose list of load-balancer attachments is
    empty; it assigns no load balancer (hence no listener), no
    instance-port resource and no DNS record.  In a document [Build]
    returns, every resource of one of these three types sits under an id
    assigned by the iteration of an exposed process. *)
Theorem unexposed_process_no_network_resources t app order p :
  scheduler.Exposure p = None →
  let key := normalize (scheduler.Type_ p) in
  ∃ td svc container,
    is_type "AWS::ECS::TaskDefinition" td
    ∧ is_type "AWS::ECS::Service" svc
    ∧ (properties svc ≫= field "LoadBalancers") = Some (VList [])
    ∧ (properties td ≫= field "ContainerDefinitions")
      = Some (VList [VMap container])
    ∧ container !! "PortMappings" = Some (VList [])
    ∧ assigned_ids p = [taskDefinitionId key; key]
    ∧ (∀ resources,
         iteration t app order p resources
         = Ok (<[ key := svc ]> (<[ taskDefinitionId key := td ]> resources)))
    ∧ (∀ rng doc id res,
         Build t rng app = Ok doc →
         Resources doc !! id = Some res →
         is_network_resource res →
         ∃ q, q ∈ scheduler.Processes app
              ∧ is_Some (scheduler.Exposure q)
              ∧ id ∈ assigned_ids q).
Proof.
  intros He key.
  exists (taskDefinitionOf t order p), (serviceOf t p),
    (containerDefinitionMap (ContainerDefinition t order p) []).
  unfold taskDefinitionOf, serviceOf, assigned_ids. rewrite He. fold key.
  split; [done|]. split; [done|].
  split; [apply attachments_of_serviceResource|].
  split; [apply containers_of_taskDefinitionResource|].
  split; [apply portMappings_of_containerDefinitionMap|].
  split; [done|]. split.
  - intros resources. rewrite iteration_writes, writes_unexposed by done.
    unfold taskDefinitionOf, serviceOf. by rewrite He.
  - intros rng doc id res HB Hres Hnet. rewrite Build_writes in HB.
    destruct (all_writes t app rng 0 (scheduler.Processes app)) as [ws|?|?]
      eqn:Hall; [|done..].
    simpl in HB. injection HB as <-. simpl in Hres.
    apply apply_writes_lookup_Some in Hres as [Hin|Hin];
      [|by rewrite lookup_empty in Hin].
    destruct (all_writes_elem _ _ _ _ _ _ _ Hall Hin)
      as (q & m & wq & Hq & Hw & Hwq).
    exists q. split; [done|].
    pose proof (writes_ids _ _ _ _ _ Hw) as Hids.
    assert (id ∈ assigned_ids q) as Hid.
    { rewrite <- Hids. apply list_elem_of_fmap. by exists (id, res). }
    split; [|done].
    destruct (writes_elem _ _ _ _ _ _ _ Hw Hwq)
      as [[_ ->]|[[_ ->]|(e & Hexp & _)]].
    + exfalso. unfold taskDefinitionOf in Hnet.
      destruct (scheduler.Exposure q); by destruct Hnet as [?|[?|?]].
    + exfalso. unfold serviceOf in Hnet.
      destruct (scheduler.Exposure q); by destruct Hnet as [?|[?|?]].
    + by rewrite Hexp.
Qed.

Lemma unexposed_process_no_network_resources_witness :
  ∃ td svc,
    (properties svc ≫= field "LoadBalancers") = Some (VList [])
    ∧ iteration (Sample.template None) (Sample.app []) []
        (Sample.process "worker" ∅ ∅ None 0) ∅
      = Ok (<[ "worker" := svc ]> (<[ "workerTaskDefinition" := td ]> ∅)).
Proof.
  destruct (unexposed_process_no_network_resources
              (Sample.template None) (Sample.app []) []
              (Sample.process "worker" ∅ ∅ None 0))
    as (td & svc & _ & _ & _ & Hlbs & _ & _ & _ & Hit & _).
  - reflexivity.
  - exists td, svc. split; [exact Hlbs|]. exact (Hit ∅).
Defined.

(** ** C9: the role of the service *)

(** C9.  The service that the iteration for a process assigns under the
    key of the process has the entry ["Role"] if and only if its list of
    load-balancer attachments is not empty, which is the case if and only
    if the process is exposed; the role is then the service role of the
    builder, and for a process without exposure the properties of the
    service have no entry ["Role"].  The document [Build] returns holds
    this service under the key unless a later process assigns that id. *)
Theorem service_role_iff_attached t app order p :
  zone_configured t ∨ ¬ primary_exposed p →
  let key := normalize (scheduler.Type_ p) in
  ∃ svc attachments,
    is_type "AWS::ECS::Service" svc
    ∧ (properties svc ≫= field "LoadBalancers") = Some (VList attachments)
    ∧ (is_Some (properties svc ≫= field "Role") ↔ attachments ≠ [])
    ∧ (attachments ≠ [] ↔ is_Some (scheduler.Exposure p))
    ∧ (is_Some (scheduler.Exposure p) →
       (properties svc ≫= field "Role") = Some (VString (ServiceRole t)))
    ∧ (scheduler.Exposure p = None →
       (properties svc ≫= field "Role") = None)
    ∧ (∀ resources, ∃ resources',
         iteration t app order p resources = Ok resources'
         ∧ resources' !! key = Some svc)
    ∧ (∀ rng l1 l3 doc,
         scheduler.Processes app = (l1 ++ p :: l3)%list →
         order = rng (length l1) (scheduler.Env p) →
         Build t rng app = Ok doc →
         Forall (λ q, key ∉ assigned_ids q) l3 →
         Resources doc !! key = Some svc).
Proof.
  intros Hok key.
  assert (∀ resources, ∃ resources',
            iteration t app order p resources = Ok resources'
            ∧ resources' !! key = Some (serviceOf t p)) as Hit.
  { intros resources.
    destruct (iteration_returns t app order p resources Hok)
      as (ws & _ & Hit).
    destruct (iteration_service _ _ _ _ _ _ Hit) as [Hsvc _].
    by exists (apply_writes ws resources). }
  assert (∀ rng l1 l3 doc,
            scheduler.Processes app = (l1 ++ p :: l3)%list →
            order = rng (length l1) (scheduler.Env p) →
            Build t rng app = Ok doc →
            Forall (λ q, key ∉ assigned_ids q) l3 →
            Resources doc !! key = Some (serviceOf t p)) as HB.
  { intros rng l1 l3 doc Hps -> HB Hl3.
    destruct (Hit ∅) as (resources' & Hiter & Hsvc).
    by eapply Build_keeps_iteration. }
  revert Hit HB. unfold serviceOf.
  destruct (scheduler.Exposure p) as [e|]; intros Hit HB.
  - exists (serviceResource t p [attachment p (loadBalancerId key)]
              (taskDefinitionId key)), [attachment p (loadBalancerId key)].
    split; [done|]. split; [apply attachments_of_serviceResource|].
    rewrite role_of_serviceResource. simpl.
    repeat split; try done; by eexists.
  - exists (serviceResource t p [] (taskDefinitionId key)), [].
    split; [done|]. split; [apply attachments_of_serviceResource|].
    rewrite role_of_serviceResource. simpl.
    repeat split; try done; by intros [? ?].
Qed.

Lemma service_role_iff_attached_witness :
  ∃ svc resources',
    (properties svc ≫= field "Role") = Some (VString "ecsServiceRole")
    ∧ iteration (Sample.template (Some Sample.zone)) (Sample.app []) []
        (Sample.process "web" ∅ ∅ Sample.http 0) ∅
      = Ok resources'
    ∧ resources' !! "web" = Some svc.
Proof.
  destruct (service_role_iff_attached
              (Sample.template (Some Sample.zone)) (Sample.app []) []
              (Sample.process "web" ∅ ∅ Sample.http 0))
    as (svc & attachments & _ & _ & _ & _ & Hrole & _ & Hit & _).
  - left. by eexists _, _.
  - destruct (Hit ∅) as (resources' & Hiter & Hsvc).
    exists svc, resources'. split; [|split; [exact Hiter|exact Hsvc]].
    apply Hrole. simpl. by eexists.
Defined.

(** * Further properties of the builder *)

(** ** Key normalisation *)

Lemma bytes_append s1 s2 : bytes (s1 +:+ s2) = (bytes s1 ++ bytes s2)%list.
Proof. induction s1 as [|c s1 IH]; simpl; [done|by rewrite IH]. Qed.

Lemma bytes_inj s1 s2 : bytes s1 = bytes s2 → s1 = s2.
Proof.
  revert s2. induction s1 as [|c s1 IH]; intros [|c' s2]; simpl; try done.
  intros [= -> Heq]. by rewrite (IH _ Heq).
Qed.

Lemma bytes_normalize s : bytes (normalize s) = filter is_alnum (bytes s).
Proof.
  induction s as [|c s IH]; simpl; [done|].
  destruct (is_alnum c) eqn:Hc; simpl.
  - rewrite filter_cons_True by (by rewrite Hc). by rewrite IH.
  - rewrite filter_cons_False by (rewrite Hc; intros []). done.
Qed.

(** X1.  The key of a process type consists of the bytes of the type
    that are ASCII letters or digits, in their order: every byte of the
    key is alphanumeric, a type made of such bytes only is its own key,
    normalising twice changes nothing more, the key of a concatenation is
    the concatenation of the keys, and the key is never longer than the
    type. *)
Theorem normalize_keeps_alphanumerics s1 s2 :
  bytes (normalize s1) = filter is_alnum (bytes s1)
  ∧ Forall (λ c, is_alnum c = true) (bytes (normalize s1))
  ∧ (Forall (λ c, is_alnum c = true) (bytes s1) → normalize s1 = s1)
  ∧ normalize (normalize s1) = normalize s1
  ∧ normalize (s1 +:+ s2) = normalize s1 +:+ normalize s2
  ∧ (String.length (normalize s1) ≤ String.length s1)%nat.
Proof.
  assert (∀ s, Forall (λ c, is_alnum c = true) (bytes (normalize s))) as Hall.
  { intros s. rewrite bytes_normalize. apply Forall_forall. intros c Hc.
    apply list_elem_of_filter in Hc as [Hc _]. by destruct (is_alnum c). }
  assert (∀ s, Forall (λ c, is_alnum c = true) (bytes s) → normalize s = s)
    as Hfix.
  { intros s. induction s as [|c s IH]; simpl; [done|].
    intros Hs. inversion Hs as [|? ? Hc Hs']; subst.
    rewrite Hc. by rewrite IH. }
  split; [apply bytes_normalize|]. split; [apply Hall|].
  split; [apply Hfix|]. split; [apply Hfix, Hall|]. split.
  - apply bytes_inj.
    by rewrite bytes_append, !bytes_normalize, bytes_append, filter_app.
  - induction s1 as [|c s1 IH]; simpl; [done|].
    destruct (is_alnum c); simpl; lia.
Qed.

Lemma normalize_keeps_alphanumerics_witness :
  normalize "worker-1" = "worker1"
  ∧ normalize ("scheduled-job" +:+ "_2")
    = normalize "scheduled-job" +:+ normalize "_2".
Proof.
  split; [reflexivity|].
  exact (proj1 (proj2 (proj2 (proj2 (proj2
           (normalize_keeps_alphanumerics "scheduled-job" "_2")))))).
Defined.

(** ** Hosted zone ids *)

Lemma prefix_append p s : String.prefix p (p +:+ s) = true.
Proof.
  induction p as [|c p IH]; simpl; [by destruct s|].
  destruct (ascii_dec c c); [done|congruence].
Qed.

Lemma prefix_split p s :
  String.prefix p s = true → ∃ rest, s = p +:+ rest.
Proof.
  revert s. induction p as [|c p IH]; intros s Hp.
  - by exists s.
  - destruct s as [|c' s]; simpl in Hp; [done|].
    destruct (ascii_dec c c') as [->|]; [|done].
    destruct (IH _ Hp) as [rest ->]. by exists rest.
Qed.

(** X2.  [fixHostedZoneIDPrefix] returns an id that starts with
    "/hostedzone/"; an id that starts with it already is returned as it
    is, any other gets the prefix put in front, once; applying the
    function to its own result changes nothing. *)
Theorem fixHostedZoneIDPrefix_prefixes_once zoneID :
  String.prefix "/hostedzone/" (fixHostedZoneIDPrefix zoneID) = true
  ∧ (String.prefix "/hostedzone/" zoneID = true →
     fixHostedZoneIDPrefix zoneID = zoneID)
  ∧ (String.prefix "/hostedzone/" zoneID = false →
     fixHostedZoneIDPrefix zoneID = "/hostedzone/" +:+ zoneID)
  ∧ fixHostedZoneIDPrefix (fixHostedZoneIDPrefix zoneID)
    = fixHostedZoneIDPrefix zoneID
  ∧ ∃ rest,
      fixHostedZoneIDPrefix zoneID = "/hostedzone/" +:+ rest
      ∧ (zoneID = rest ∨ zoneID = "/hostedzone/" +:+ rest).
Proof.
  assert (∀ z, String.prefix "/hostedzone/" (fixHostedZoneIDPrefix z) = true)
    as Hp.
  { intros z. unfold fixHostedZoneIDPrefix.
    destruct (String.prefix "/hostedzone/" z) eqn:Hz; simpl; [done|].
    apply (prefix_append "/hostedzone/"). }
  assert (∀ z, String.prefix "/hostedzone/" z = true →
            fixHostedZoneIDPrefix z = z) as Hid.
  { intros z Hz. unfold fixHostedZoneIDPrefix. by rewrite Hz. }
  split; [apply Hp|]. split; [apply Hid|]. split; [|split].
  - intros Hz. unfold fixHostedZoneIDPrefix. by rewrite Hz.
  - apply Hid, Hp.
  - unfold fixHostedZoneIDPrefix.
    destruct (String.prefix "/hostedzone/" zoneID) eqn:Hz; simpl.
    + destruct (prefix_split _ _ Hz) as [rest ->]. exists rest. by split; [|right].
    + exists zoneID. by split; [|left].
Qed.

(** ** When [Build] returns and when it panics *)

Lemma zone_configured_or_not t : zone_configured t ∨ ¬ zone_configured t.
Proof.
  unfold zone_configured.
  destruct (HostedZone t) as [[[zid|] [zname|]]|].
  - left. by exists zid, zname.
  - right. by intros (? & ? & [=]).
  - right. by intros (? & ? & [=]).
  - right. by intros (? & ? & [=]).
  - right. by intros (? & ? & [=]).
Qed.

Lemma cname_write_unconfigured t app key :
  ¬ zone_configured t → cname_write t app key = Panic NilDereference.
Proof.
  intros Hno. unfold cname_write.
  destruct (HostedZone t) as [[[zid|] [zname|]]|] eqn:Hz; try done.
  destruct Hno. exists zid, zname. done.
Qed.

Lemma all_writes_unconfigured t app rng n ps :
  ¬ zone_configured t → Exists primary_exposed ps →
  all_writes t app rng n ps = Panic NilDereference.
Proof.
  intros Hno Hex. revert n.
  induction ps as [|q ps IH]; intros n; [by inversion Hex|]. simpl.
  destruct (decide (primary_exposed q)) as [[Hweb [e He]]|Hq].
  - unfold writes. rewrite He, decide_True by done.
    by rewrite cname_write_unconfigured.
  - pose proof (writes_not_Err t app (rng n (scheduler.Env q)) q) as Hne.
    destruct (writes t app (rng n (scheduler.Env q)) q) as [ws|e|[]];
      [|by destruct (Hne e)|done].
    simpl. rewrite IH; [done|]. by inversion Hex.
Qed.

(** X3.  The error result of [Build] is nil on every path.  [Build]
    returns a document exactly when the hosted zone and its id and name
    are there, or no process is both named "web" and exposed; in the
    remaining case, a nil pointer is dereferenced and the call panics. *)
Theorem Build_returns_or_panics t rng app :
  (∀ e, Build t rng app ≠ Err e)
  ∧ ((∃ doc, Build t rng app = Ok doc)
     ↔ zone_configured t
       ∨ Forall (λ p, ¬ primary_exposed p) (scheduler.Processes app))
  ∧ (Build t rng app = Panic NilDereference
     ↔ ¬ zone_configured t
       ∧ Exists primary_exposed (scheduler.Processes app)).
Proof.
  assert (¬ zone_configured t →
          Exists primary_exposed (scheduler.Processes app) →
          Build t rng app = Panic NilDereference) as Hpanic.
  { intros Hno Hex. rewrite Build_writes.
    by rewrite all_writes_unconfigured. }
  assert (¬ (zone_configured t
             ∨ Forall (λ p, ¬ primary_exposed p) (scheduler.Processes app)) →
          ¬ zone_configured t
          ∧ Exists primary_exposed (scheduler.Processes app)) as Hcase.
  { intros Hnot. split; [tauto|].
    destruct (decide (Exists primary_exposed (scheduler.Processes app)))
      as [?|Hnex]; [done|].
    destruct Hnot. right. apply Forall_forall. intros p Hp Hprim.
    apply Hnex, Exists_exists. by exists p. }
  split; [intros e; apply Build_never_errs|]. split.
  - split; [|apply Build_returns].
    intros [doc Hdoc].
    destruct (zone_configured_or_not t) as [?|Hno]; [by left|]. right.
    apply Forall_forall. intros p Hp Hprim.
    rewrite Hpanic in Hdoc; [done|done|].
    apply Exists_exists. by exists p.
  - split; [|by intros [? ?]; apply Hpanic].
    intros HB. apply Hcase. intros Hok.
    destruct (Build_returns t rng app Hok) as [doc Hdoc]. congruence.
Qed.

(** ** The ids of a document *)

Lemma apply_writes_lookup_NoDup ws r id res :
  NoDup ws.*1 → (id, res) ∈ ws → apply_writes ws r !! id = Some res.
Proof.
  intros Hnd Hin. apply list_elem_of_split in Hin as (w1 & w2 & ->).
  apply apply_writes_lookup_last.
  rewrite fmap_app in Hnd. apply NoDup_app in Hnd as (_ & _ & Hnd).
  simpl in Hnd. by inversion Hnd.
Qed.

(** X4.  The ids of the resources of a document [Build] returns are the
    ids its iterations assign, process by process: the key and the
    task-definition id of every process and, for an exposed one, its
    instance-port and load-balancer ids, and "CNAME" for an exposed
    "web".  So there are at most as many resources as assigned ids, and
    an application without processes gives an empty document. *)
Theorem Build_resource_ids t rng app doc :
  Build t rng app = Ok doc →
  dom (Resources doc) = list_to_set (scheduler.Processes app ≫= assigned_ids)
  ∧ (size (Resources doc)
     ≤ length (scheduler.Processes app ≫= assigned_ids))%nat
  ∧ (∀ p, p ∈ scheduler.Processes app →
       is_Some (Resources doc !! normalize (scheduler.Type_ p))
       ∧ is_Some (Resources doc
                    !! taskDefinitionId (normalize (scheduler.Type_ p))))
  ∧ (scheduler.Processes app = [] → Resources doc = ∅).
Proof.
  intros HB. rewrite Build_writes in HB.
  destruct (all_writes t app rng 0 (scheduler.Processes app)) as [ws|?|?]
    eqn:Hall; [|done..].
  simpl in HB. injection HB as <-. simpl.
  assert (dom (apply_writes ws ∅)
          = list_to_set (C:=gset string)
              (scheduler.Processes app ≫= assigned_ids)) as Hdom.
  { rewrite apply_writes_dom, (all_writes_ids _ _ _ _ _ _ Hall).
    set_solver. }
  split; [done|]. split; [|split].
  - rewrite <- size_dom, Hdom.
    generalize (scheduler.Processes app ≫= assigned_ids). intros l.
    induction l as [|x l IH].
    + rewrite list_to_set_nil, size_empty. done.
    + rewrite list_to_set_cons, size_union_alt, size_singleton. simpl.
      pose proof (subseteq_size (list_to_set l ∖ {[x]})
                    (list_to_set (C:=gset string) l)) as Hle.
      specialize (Hle ltac:(set_solver)). lia.
  - intros p Hp. rewrite <- !elem_of_dom, Hdom.
    rewrite !elem_of_list_to_set, !list_elem_of_bind.
    split; exists p; (split; [|done]); unfold assigned_ids; set_solver.
  - intros Hnil. rewrite Hnil in Hall. simpl in Hall. by injection Hall as <-.
Qed.

Lemma Build_resource_ids_witness :
  ∃ doc,
    Build (Sample.template (Some Sample.zone)) Sample.forwards
      (Sample.app [Sample.process "web" ∅ ∅ Sample.http 0;
                   Sample.process "worker-1" ∅ ∅ None 0]) = Ok doc
    ∧ dom (Resources doc)
      = {[ "web8080InstancePort"; "webLoadBalancer"; "CNAME";
           "webTaskDefinition"; "web"; "worker1TaskDefinition"; "worker1" ]}.
Proof.
  destruct (Build_returns (Sample.template (Some Sample.zone)) Sample.forwards
              (Sample.app [Sample.process "web" ∅ ∅ Sample.http 0;
                           Sample.process "worker-1" ∅ ∅ None 0]))
    as [doc Hdoc].
  { left. by eexists _, _. }
  exists doc. split; [exact Hdoc|].
  rewrite (proj1 (Build_resource_ids _ _ _ _ Hdoc)).
  vm_compute. reflexivity.
Defined.

(** X5.  Without collisions nothing is lost: when the ids the
    iterations assign are pairwise different, the document [Build]
    returns has exactly one resource per assigned id, and whatever an
    iteration leaves under an id is what the document holds there. *)
Theorem collision_free_build_keeps_everything t rng app doc :
  NoDup (scheduler.Processes app ≫= assigned_ids) →
  Build t rng app = Ok doc →
  size (Resources doc) = length (scheduler.Processes app ≫= assigned_ids)
  ∧ (∀ l1 p l3 resources' id res,
       scheduler.Processes app = (l1 ++ p :: l3)%list →
       iteration t app (rng (length l1) (scheduler.Env p)) p ∅
         = Ok resources' →
       resources' !! id = Some res →
       Resources doc !! id = Some res).
Proof.
  intros Hnd HB. split.
  - destruct (Build_resource_ids _ _ _ _ HB) as (Hdom & _).
    by rewrite <- size_dom, Hdom, size_list_to_set.
  - intros l1 p l3 resources' id res Hps Hit Hres.
    eapply Build_keeps_iteration; [done..|].
    assert (id ∈ assigned_ids p) as Hid.
    { rewrite iteration_writes in Hit.
      destruct (writes t app (rng (length l1) (scheduler.Env p)) p)
        as [ws|?|?] eqn:Hw; [|done..].
      simpl in Hit. injection Hit as <-.
      apply apply_writes_lookup_Some in Hres as [Hin|Hin];
        [|by rewrite lookup_empty in Hin].
      rewrite <- (writes_ids _ _ _ _ _ Hw).
      apply list_elem_of_fmap. by exists (id, res). }
    rewrite Hps, bind_app in Hnd. apply NoDup_app in Hnd as (_ & _ & Hnd).
    change ((p :: l3) ≫= assigned_ids)
      with (assigned_ids p ++ (l3 ≫= assigned_ids))%list in Hnd.
    apply NoDup_app in Hnd as (_ & Hdisj & _).
    apply Forall_forall. intros q Hq Hin.
    apply (Hdisj id Hid), list_elem_of_bind. by exists q.
Qed.

Lemma collision_free_build_keeps_everything_witness :
  ∃ doc,
    Build (Sample.template (Some Sample.zone)) Sample.forwards
      (Sample.app [Sample.process "web" ∅ ∅ Sample.http 0;
                   Sample.process "worker-1" ∅ ∅ None 0]) = Ok doc
    ∧ size (Resources doc) = 7%nat.
Proof.
  destruct (Build_returns (Sample.template (Some Sample.zone)) Sample.forwards
              (Sample.app [Sample.process "web" ∅ ∅ Sample.http 0;
                           Sample.process "worker-1" ∅ ∅ None 0]))
    as [doc Hdoc].
  { left. by eexists _, _. }
  exists doc. split; [exact Hdoc|].
  refine (proj1 (collision_free_build_keeps_everything
                   (Sample.template (Some Sample.zone)) Sample.forwards
                   (Sample.app [Sample.process "web" ∅ ∅ Sample.http 0;
                                Sample.process "worker-1" ∅ ∅ None 0])
                   doc _ Hdoc)).
  apply (bool_decide_unpack _). vm_compute. exact I.
Defined.

(** ** Process limits *)

(** X6.  A process with [Nproc] zero gets no ulimit; any other (below
    2^63, where the conversion to [int64] changes nothing) gets exactly
    one, named "nproc", whose soft and hard limits both are [Nproc].  The
    list is what the container definition of the document holds under
    ["Ulimits"]. *)
Theorem nproc_ulimit t order p :
  let cd := ContainerDefinition t order p in
  (scheduler.Nproc p = 0 → ecs.Ulimits cd = [])
  ∧ (0 < scheduler.Nproc p < 2 ^ 63 →
     ecs.Ulimits cd
     = [ {| ecs.UlimitName := "nproc";
            ecs.SoftLimit := scheduler.Nproc p;
            ecs.HardLimit := scheduler.Nproc p |} ])
  ∧ (length (ecs.Ulimits cd) ≤ 1)%nat
  ∧ (∀ environment portMappings,
       containerDefinitionMap (with_environment cd environment) portMappings
         !! "Ulimits"
       = Some (VList (Ulimit_value <$> ecs.Ulimits cd))).
Proof.
  intros cd. unfold cd, ContainerDefinition. simpl ecs.Ulimits.
  split; [|split; [|split]].
  - intros ->. done.
  - intros Hn. rewrite decide_True by lia.
    by rewrite to_int64_small by lia.
  - case_decide; simpl; lia.
  - intros environment portMappings. unfold containerDefinitionMap.
    simpl ecs.LogConfiguration.
    destruct (LogConfiguration t); by simplify_map_eq.
Qed.

Lemma nproc_ulimit_witness :
  ecs.Ulimits
    (ContainerDefinition (Sample.template None) []
       {| scheduler.Type_ := "web"; scheduler.Image := "";
          scheduler.Command := []; scheduler.Env := ∅;
          scheduler.Labels := ∅; scheduler.Exposure := None;
          scheduler.Instances := 1; scheduler.MemoryLimit := 0;
          scheduler.CPUShares := 0; scheduler.Nproc := 256 |})
  = [ {| ecs.UlimitName := "nproc"; ecs.SoftLimit := 256;
         ecs.HardLimit := 256 |} ].
Proof.
  refine (proj1 (proj2 (nproc_ulimit (Sample.template None) []
            {| scheduler.Type_ := "web"; scheduler.Image := "";
               scheduler.Command := []; scheduler.Env := ∅;
               scheduler.Labels := ∅; scheduler.Exposure := None;
               scheduler.Instances := 1; scheduler.MemoryLimit := 0;
               scheduler.CPUShares := 0; scheduler.Nproc := 256 |})) _).
  simpl. lia.
Defined.

(** ** Environment and port *)

Lemma mapM_pair_of_variable kvs :
  mapM pair_of_variable (KeyValuePair_value <$> kvs)
  = Some ((λ kv, (ecs.Name kv, ecs.Value kv)) <$> kvs).
Proof.
  induction kvs as [|kv kvs IH]; [done|].
  rewrite !fmap_cons. simpl mapM. rewrite IH. done.
Qed.

Lemma environment_of_taskDefinitionResource cd portMappings :
  environment_of (taskDefinitionResource cd portMappings)
  = Some ((λ kv, (ecs.Name kv, ecs.Value kv)) <$> ecs.Environment cd).
Proof.
  unfold environment_of, first_container.
  rewrite containers_of_taskDefinitionResource. simpl.
  assert (containerDefinitionMap cd portMappings !! "Environment"
          = Some (VList (KeyValuePair_value <$> ecs.Environment cd))) as ->.
  { unfold containerDefinitionMap.
    destruct (ecs.LogConfiguration cd); by simplify_map_eq. }
  apply mapM_pair_of_variable.
Qed.

Lemma portMappings_of_taskDefinitionResource cd portMappings :
  first_container (taskDefinitionResource cd portMappings)
    ≫= field "PortMappings"
  = Some (VList portMappings).
Proof.
  unfold first_container. rewrite containers_of_taskDefinitionResource.
  simpl. apply portMappings_of_containerDefinitionMap.
Qed.

(** X7.  The container of the task definition an iteration assigns has
    the environment variables of the process in the order in which the
    map was visited; for an exposed process the variable PORT with value
    "8080" is appended after them, whether or not the process has a
    variable PORT of its own, and the one port mapping sends container
    port 8080 to the instance port looked up by [Fn::GetAtt]; a process
    without exposure has no port mapping and no added variable.  When the
    visit is a true visit of the map, the variables before PORT are the
    entries of the map, each once. *)
Theorem environment_and_port t app order p resources resources' :
  iteration t app order p resources = Ok resources' →
  let key := normalize (scheduler.Type_ p) in
  ∃ td,
    resources' !! taskDefinitionId key = Some td
    ∧ environment_of td
      = Some (order ++ match scheduler.Exposure p with
                       | Some _ => [("PORT", "8080")]
                       | None => []
                       end)%list
    ∧ (first_container td ≫= field "PortMappings")
      = Some (VList match scheduler.Exposure p with
                    | Some _ =>
                        [ VMap {[ "ContainerPort" := VInt 8080;
                                  "HostPort" :=
                                    GetAtt (instancePortId key)
                                      "InstancePort" ]} ]
                    | None => []
                    end)
    ∧ (order ≡ₚ map_to_list (scheduler.Env p) →
       NoDup order.*1
       ∧ ∀ name v, (name, v) ∈ order ↔ scheduler.Env p !! name = Some v).
Proof.
  intros Hit key.
  destruct (iteration_service _ _ _ _ _ _ Hit) as [_ Htd].
  exists (taskDefinitionOf t order p). split; [done|].
  unfold taskDefinitionOf. fold key.
  assert ((λ kv : ecs.KeyValuePair, (ecs.Name kv, ecs.Value kv))
            <$> ((λ kv : string * string,
                    {| ecs.Name := kv.1; ecs.Value := kv.2 |}) <$> order)
          = order) as Hmap.
  { rewrite <- list_fmap_compose. rewrite <- (list_fmap_id order) at 2.
    apply list_fmap_ext. by intros ? []. }
  split; [|split].
  - destruct (scheduler.Exposure p);
      rewrite environment_of_taskDefinitionResource; simpl ecs.Environment.
    + by rewrite fmap_app, Hmap.
    + by rewrite Hmap, app_nil_r.
  - destruct (scheduler.Exposure p);
      by rewrite portMappings_of_taskDefinitionResource.
  - intros Hperm. split.
    + rewrite Hperm. apply NoDup_fst_map_to_list.
    + intros name v. rewrite Hperm. apply elem_of_map_to_list.
Qed.

Lemma environment_and_port_witness :
  ∃ resources' td,
    iteration (Sample.template (Some Sample.zone)) (Sample.app [])
      [("PORT", "3000")]
      (Sample.process "web" {[ "PORT" := "3000" ]} ∅ Sample.http 0) ∅
    = Ok resources'
    ∧ resources' !! "webTaskDefinition" = Some td
    ∧ environment_of td = Some [("PORT", "3000"); ("PORT", "8080")].
Proof.
  destruct (iteration_returns (Sample.template (Some Sample.zone))
              (Sample.app []) [("PORT", "3000")]
              (Sample.process "web" {[ "PORT" := "3000" ]} ∅ Sample.http 0)
              ∅) as (ws & _ & Hit).
  { left. by eexists _, _. }
  destruct (environment_and_port _ _ _ _ _ _ Hit) as (td & Htd & Henv & _).
  eexists _, td. split; [exact Hit|]. split; [exact Htd|exact Henv].
Defined.

(** ** Load balancer and service *)

(** X8.  The load balancer of an exposed process follows the visibility
    of the exposure and nothing else: an external exposure gives the
    scheme "internet-facing" with the external security group and
    subnets, an internal one the scheme "internal" with the internal
    group and subnets.  Balancing across zones is on, connection draining
    is on with a timeout of 30, and the one tag records the type of the
    process as it was given. *)
Theorem load_balancer_follows_visibility t app order p e resources resources' :
  scheduler.Exposure p = Some e →
  iteration t app order p resources = Ok resources' →
  ∃ lb props,
    resources' !! loadBalancerId (normalize (scheduler.Type_ p)) = Some lb
    ∧ is_type "AWS::ElasticLoadBalancing::LoadBalancer" lb
    ∧ properties lb = Some (VMap props)
    ∧ props !! "Scheme"
      = Some (VString (if scheduler.External e then "internet-facing"
                       else "internal"))
    ∧ props !! "SecurityGroups"
      = Some (VStrings [if scheduler.External e
                        then ExternalSecurityGroupID t
                        else InternalSecurityGroupID t])
    ∧ props !! "Subnets"
      = Some (VStrings (if scheduler.External e then ExternalSubnetIDs t
                        else InternalSubnetIDs t))
    ∧ props !! "CrossZone" = Some (VBool true)
    ∧ props !! "ConnectionDrainingPolicy"
      = Some (VMap {[ "Enabled" := VBool true; "Timeout" := VInt 30 ]})
    ∧ props !! "Tags"
      = Some (VList [ VMap {[ "Key" := VString "empire.app.process";
                              "Value" := VString (scheduler.Type_ p) ]} ]).
Proof.
  intros He Hit.
  destruct (iteration_exposed _ _ _ _ _ _ _ He Hit) as [Hlb _].
  exists (loadBalancerOf t p e),
    (loadBalancerProperties p (exposure_scheme e) (exposure_group t e)
       (exposure_subnets t e)
       (buildListeners (instancePortId (normalize (scheduler.Type_ p))) e)).
  split; [exact Hlb|]. split; [done|].
  split; [unfold loadBalancerOf; apply properties_loadBalancerResource|].
  unfold exposure_scheme, exposure_group, exposure_subnets.
  destruct (scheduler.External e); repeat split; reflexivity.
Qed.

Lemma load_balancer_follows_visibility_witness :
  ∃ resources' lb props,
    iteration (Sample.template (Some Sample.zone)) (Sample.app []) []
      (Sample.process "api" ∅ ∅ Sample.http 0) ∅ = Ok resources'
    ∧ resources' !! "apiLoadBalancer" = Some lb
    ∧ properties lb = Some (VMap props)
    ∧ props !! "Scheme" = Some (VString "internal")
    ∧ props !! "SecurityGroups" = Some (VStrings ["sg-e7387381"]).
Proof.
  destruct (iteration_returns (Sample.template (Some Sample.zone))
              (Sample.app []) []
              (Sample.process "api" ∅ ∅ Sample.http 0) ∅)
    as (ws & _ & Hit).
  { left. by eexists _, _. }
  destruct (load_balancer_follows_visibility _ _ _
              (Sample.process "api" ∅ ∅ Sample.http 0)
              {| scheduler.External := false;
                 scheduler.ExpType := scheduler.HTTPExposure |}
              _ _ eq_refl Hit)
    as (lb & props & Hlb & _ & Hprops & Hscheme & Hsg & _).
  eexists _, lb, props. split; [exact Hit|]. split; [exact Hlb|].
  split; [exact Hprops|]. split; [exact Hscheme|exact Hsg].
Defined.

(** X9.  The service an iteration assigns under the key of the process
    runs in the cluster of the builder with the instance count of the
    process as desired count, refers to the task definition the same
    iteration assigns, and keeps the type of the process, as given and
    not normalised, in its metadata.  For an exposed process its one
    load-balancer attachment names the container after the type, uses
    container port 8080 and refers to the load balancer the same
    iteration assigns. *)
Theorem service_binds_task_and_balancer t app order p resources resources' :
  iteration t app order p resources = Ok resources' →
  let key := normalize (scheduler.Type_ p) in
  ∃ svc props td,
    resources' !! key = Some svc
    ∧ is_type "AWS::ECS::Service" svc
    ∧ field "Metadata" svc
      = Some (VMap {[ "Name" := VString (scheduler.Type_ p) ]})
    ∧ properties svc = Some (VMap props)
    ∧ props !! "Cluster" = Some (VString (Cluster t))
    ∧ props !! "DesiredCount" = Some (VInt (scheduler.Instances p))
    ∧ props !! "TaskDefinition" = Some (Ref (taskDefinitionId key))
    ∧ resources' !! taskDefinitionId key = Some td
    ∧ is_type "AWS::ECS::TaskDefinition" td
    ∧ (∀ e, scheduler.Exposure p = Some e →
         props !! "LoadBalancers"
         = Some (VList [ VMap {[ "ContainerName" :=
                                   VString (scheduler.Type_ p);
                                 "ContainerPort" := VInt 8080;
                                 "LoadBalancerName" :=
                                   Ref (loadBalancerId key) ]} ])
         ∧ ∃ lb, resources' !! loadBalancerId key = Some lb
                 ∧ is_type "AWS::ElasticLoadBalancing::LoadBalancer" lb).
Proof.
  intros Hit key.
  destruct (iteration_service _ _ _ _ _ _ Hit) as [Hsvc Htd].
  assert (is_type "AWS::ECS::TaskDefinition" (taskDefinitionOf t order p))
    as Htype.
  { unfold taskDefinitionOf. by destruct (scheduler.Exposure p). }
  revert Hsvc. unfold serviceOf. fold key.
  destruct (scheduler.Exposure p) as [e|] eqn:He; intros Hsvc.
  - exists (serviceResource t p [attachment p (loadBalancerId key)]
              (taskDefinitionId key)),
      (serviceProperties t p [attachment p (loadBalancerId key)]
         (taskDefinitionId key)),
      (taskDefinitionOf t order p).
    split; [exact Hsvc|]. split; [done|].
    split; [apply field_Metadata_serviceResource|].
    split; [apply properties_serviceResource|].
    do 3 (split; [reflexivity|]). split; [exact Htd|]. split; [exact Htype|].
    intros e' _. split; [reflexivity|].
    destruct (iteration_exposed _ _ _ _ _ _ _ He Hit) as [Hlb _].
    by eexists.
  - exists (serviceResource t p [] (taskDefinitionId key)),
      (serviceProperties t p [] (taskDefinitionId key)),
      (taskDefinitionOf t order p).
    split; [exact Hsvc|]. split; [done|].
    split; [apply field_Metadata_serviceResource|].
    split; [apply properties_serviceResource|].
    do 3 (split; [reflexivity|]). split; [exact Htd|]. split; [exact Htype|].
    intros e' [=].
Qed.

Lemma service_binds_task_and_balancer_witness :
  ∃ resources' svc props,
    iteration (Sample.template None) (Sample.app []) []
      (Sample.process "worker-1" ∅ ∅ None 0) ∅ = Ok resources'
    ∧ resources' !! "worker1" = Some svc
    ∧ field "Metadata" svc = Some (VMap {[ "Name" := VString "worker-1" ]})
    ∧ properties svc = Some (VMap props)
    ∧ props !! "TaskDefinition" = Some (Ref "worker1TaskDefinition").
Proof.
  destruct (iteration_returns (Sample.template None) (Sample.app []) []
              (Sample.process "worker-1" ∅ ∅ None 0) ∅) as (ws & _ & Hit).
  { right. by intros [? ?]. }
  destruct (service_binds_task_and_balancer _ _ _ _ _ _ Hit)
    as (svc & props & td & Hsvc & _ & Hmeta & Hprops & _ & _ & Htd & _).
  eexists _, svc, props. split; [exact Hit|]. split; [exact Hsvc|].
  split; [exact Hmeta|]. split; [exact Hprops|exact Htd].
Defined.

(** ** The container and the kinds of resources *)

(** X10.  The container of the task definition an iteration assigns takes
    the type of the process as its name and the command, the image and
    the labels of the process as they are; it is essential; its CPU value
    is the CPU share count (below 2^63, where the conversion to [int64]
    changes nothing); it has the entry ["LogConfiguration"] exactly when
    the builder has a logging configuration, which it passes on as it is;
    and the task definition has no volumes. *)
Theorem container_passes_process_through t app order p resources resources' :
  iteration t app order p resources = Ok resources' →
  ∃ td container,
    resources' !! taskDefinitionId (normalize (scheduler.Type_ p)) = Some td
    ∧ first_container td = Some (VMap container)
    ∧ container !! "Name" = Some (VString (scheduler.Type_ p))
    ∧ container !! "Command" = Some (VStrings (scheduler.Command p))
    ∧ container !! "Image" = Some (VString (scheduler.Image p))
    ∧ container !! "Essential" = Some (VBool true)
    ∧ container !! "DockerLabels"
      = Some (VMap (VString <$> scheduler.Labels p))
    ∧ (0 ≤ scheduler.CPUShares p < 2 ^ 63 →
       container !! "Cpu" = Some (VInt (scheduler.CPUShares p)))
    ∧ container !! "LogConfiguration" = LogConfiguration t
    ∧ (properties td ≫= field "Volumes") = Some (VList []).
Proof.
  intros Hit.
  destruct (iteration_service _ _ _ _ _ _ Hit) as [_ Htd].
  assert (∀ cd portMappings,
            ecs.LogConfiguration cd = LogConfiguration t →
            ecs.ContainerName cd = scheduler.Type_ p →
            ecs.Command cd = scheduler.Command p →
            ecs.Image cd = scheduler.Image p →
            ecs.Essential cd = true →
            ecs.DockerLabels cd = scheduler.Labels p →
            ecs.Cpu cd = to_int64 (scheduler.CPUShares p) →
            let container := containerDefinitionMap cd portMappings in
            container !! "Name" = Some (VString (scheduler.Type_ p))
            ∧ container !! "Command" = Some (VStrings (scheduler.Command p))
            ∧ container !! "Image" = Some (VString (scheduler.Image p))
            ∧ container !! "Essential" = Some (VBool true)
            ∧ container !! "DockerLabels"
              = Some (VMap (VString <$> scheduler.Labels p))
            ∧ (0 ≤ scheduler.CPUShares p < 2 ^ 63 →
               container !! "Cpu" = Some (VInt (scheduler.CPUShares p)))
            ∧ container !! "LogConfiguration" = LogConfiguration t) as Hcd.
  { intros cd portMappings Hlc Hname Hcmd Himg Hess Hlab Hcpu container.
    unfold container, containerDefinitionMap.
    rewrite Hlc, Hname, Hcmd, Himg, Hess, Hlab, Hcpu.
    destruct (LogConfiguration t);
      (do 5 (split; [reflexivity|]);
       split; [intros Hrange; rewrite to_int64_small by done |];
       reflexivity). }
  exists (taskDefinitionOf t order p). unfold taskDefinitionOf in *.
  destruct (scheduler.Exposure p).
  - eexists. split; [exact Htd|]. split; [reflexivity|].
    pose proof (Hcd (with_environment (ContainerDefinition t order p)
                       (ecs.Environment (ContainerDefinition t order p)
                        ++ [portVariable])%list)
                  [portMapping (instancePortId
                                  (normalize (scheduler.Type_ p)))]
                  eq_refl eq_refl eq_refl eq_refl eq_refl eq_refl eq_refl)
      as (H1 & H2 & H3 & H4 & H5 & H6 & H7).
    by repeat split.
  - eexists. split; [exact Htd|]. split; [reflexivity|].
    pose proof (Hcd (ContainerDefinition t order p) []
                  eq_refl eq_refl eq_refl eq_refl eq_refl eq_refl eq_refl)
      as (H1 & H2 & H3 & H4 & H5 & H6 & H7).
    by repeat split.
Qed.

Lemma container_passes_process_through_witness :
  ∃ resources' td container,
    iteration (Sample.template None) (Sample.app []) []
      (Sample.process "worker-1" ∅ {[ "tier" := "batch" ]} None 0) ∅
    = Ok resources'
    ∧ resources' !! "worker1TaskDefinition" = Some td
    ∧ first_container td = Some (VMap container)
    ∧ container !! "Name" = Some (VString "worker-1")
    ∧ container !! "LogConfiguration" = None.
Proof.
  destruct (iteration_returns (Sample.template None) (Sample.app []) []
              (Sample.process "worker-1" ∅ {[ "tier" := "batch" ]} None 0) ∅)
    as (ws & _ & Hit).
  { right. by intros [? ?]. }
  destruct (container_passes_process_through _ _ _ _ _ _ Hit)
    as (td & container & Htd & Hc & Hname & _ & _ & _ & _ & _ & Hlc & _).
  eexists _, td, container. split; [exact Hit|]. split; [exact Htd|].
  split; [exact Hc|]. split; [exact Hname|exact Hlc].
Defined.

(** X11.  Every resource of a document [Build] returns is a task
    definition, a service, a load balancer, an instance-port resource or
    a DNS record, and has properties; the services, and only they, carry
    metadata. *)
Theorem Build_resource_kinds t rng app doc id res :
  Build t rng app = Ok doc →
  Resources doc !! id = Some res →
  (is_type "AWS::ECS::TaskDefinition" res
   ∨ is_type "AWS::ECS::Service" res
   ∨ is_network_resource res)
  ∧ is_Some (properties res)
  ∧ (is_Some (field "Metadata" res) ↔ is_type "AWS::ECS::Service" res).
Proof.
  intros HB Hres. rewrite Build_writes in HB.
  destruct (all_writes t app rng 0 (scheduler.Processes app)) as [ws|?|?]
    eqn:Hall; [|done..].
  simpl in HB. injection HB as <-. simpl in Hres.
  apply apply_writes_lookup_Some in Hres as [Hin|Hin];
    [|by rewrite lookup_empty in Hin].
  destruct (all_writes_elem _ _ _ _ _ _ _ Hall Hin)
    as (q & m & wq & Hq & Hw & Hwq).
  unfold is_network_resource.
  destruct (writes_elem _ _ _ _ _ _ _ Hw Hwq)
    as [[_ ->]|[[_ ->]|(e & He & [[_ ->]|[[_ ->]|(_ & _ & Hrec)]])]].
  - unfold taskDefinitionOf. destruct (scheduler.Exposure q).
    + split; [by left|]. split; [by eexists|].
      split; [by intros [? ?]|by intros ?].
    + split; [by left|]. split; [by eexists|].
      split; [by intros [? ?]|by intros ?].
  - unfold serviceOf. destruct (scheduler.Exposure q).
    + split; [by right; left|]. split; [by eexists|].
      split; [done|]. intros _. by eexists.
    + split; [by right; left|]. split; [by eexists|].
      split; [done|]. intros _. by eexists.
  - split; [by right; right; right; left|]. split; [by eexists|].
    split; [by intros [? ?]|by intros ?].
  - split; [by right; right; left|]. split; [by eexists|].
    split; [by intros [? ?]|by intros ?].
  - destruct Hrec as (zid & zname & _ & ->).
    split; [by right; right; right; right|]. split; [by eexists|].
    split; [by intros [? ?]|by intros ?].
Qed.

Lemma Build_resource_kinds_witness :
  ∃ doc res,
    Build (Sample.template (Some Sample.zone)) Sample.forwards
      (Sample.app [Sample.process "web" ∅ ∅ Sample.http 0]) = Ok doc
    ∧ Resources doc !! "CNAME" = Some res
    ∧ is_Some (properties res).
Proof.
  eexists _, _. split; [reflexivity|].
  assert (∀ doc res,
            Build (Sample.template (Some Sample.zone)) Sample.forwards
              (Sample.app [Sample.process "web" ∅ ∅ Sample.http 0]) = Ok doc →
            Resources doc !! "CNAME" = Some res →
            Resources doc !! "CNAME" = Some res ∧ is_Some (properties res))
    as Hboth.
  { intros doc res Hdoc Hres. split; [exact Hres|].
    exact (proj1 (proj2 (Build_resource_kinds _ _ _ _ _ _ Hdoc Hres))). }
  apply Hboth; [reflexivity|]. vm_compute. reflexivity.
Defined.
